(** * Pan/zoom viewport transform of the ImageCrop control

    A shallow embedding of the geometry kernel ([viewportUtils.ts]), of the
    view-transform store ([useImageViewTransform.ts]), of the coordinate
    bridge, the effects and the pointer handlers of [imageCropControl.tsx],
    of the viewport-based export ([useCropToBase64.ts]), of the outputs of
    the control ([index.ts]) and of the source selection of [useImageSrc.ts],
    with the properties the specification states about them and further
    properties read off the code.

    Numbers.  A JavaScript [number] is modelled as an exact rational [Q]:
    [+ - * /] are the field operations, [Math.max]/[Math.min] are [Qmax]/[Qmin],
    comparisons are the boolean comparisons of [Q], and two numbers are the
    same when they are [==] ([Qeq]).  Rounding, [NaN] and the infinities are
    outside this model; every division the properties below depend on has a
    divisor that is shown to be positive. *)

From Stdlib Require Import QArith Qminmax Qround Bool Lqa Lia List String.

Local Open Scope list_scope.
Local Open Scope Q_scope.

(** ** JavaScript numbers and [Math] *)

Module Num.

(** [a <= b] *)
Definition leb (a b : Q) : bool := Qle_bool a b.

(** [a < b] *)
Definition ltb (a b : Q) : bool := negb (Qle_bool b a).

(** [a > b] *)
Definition gtb (a b : Q) : bool := ltb b a.

(** [a === b] on numbers *)
Definition eqb (a b : Q) : bool := Qeq_bool a b.

(** [a !== b] on numbers *)
Definition neqb (a b : Q) : bool := negb (Qeq_bool a b).

End Num.

Module Math.

Definition max (a b : Q) : Q := Qmax a b.
Definition min (a b : Q) : Q := Qmin a b.

End Math.

(** [clamp(v, min, max) = Math.max(min, Math.min(max, v))], the reading of
    "clamp" fixed by the doc comment of [getScaleLimits]. *)
Definition clamp3 (v lo hi : Q) : Q := Math.max lo (Math.min hi v).

(** ** Geometry kernel: [utils/viewportUtils.ts] *)

Module ViewportUtils.

Record ViewTransform : Set := mkViewTransform {
  scale : Q;
  translateX : Q;
  translateY : Q
}.

(** The object [{ minScale, maxScale, baseScale }]. *)
Record ScaleLimits : Set := mkScaleLimits {
  minScale : Q;
  maxScale : Q;
  baseScale : Q
}.

Definition MIN_ZOOM_MULTIPLIER : Q := 0.4.
Definition MAX_ZOOM_MULTIPLIER : Q := 3.0.

Definition getCoverScale (viewportW viewportH imgW imgH : Q) : Q :=
  if Num.leb imgW 0 || Num.leb imgH 0 then 1
  else Math.max (viewportW / imgW) (viewportH / imgH).

(** The returned object [{ translateX, translateY }] is the pair
    [(translateX, translateY)]. *)
Definition getCenterTranslation (viewportW viewportH imgW imgH scale : Q)
  : Q * Q :=
  let scaledW := imgW * scale in
  let scaledH := imgH * scale in
  ((viewportW - scaledW) / 2, (viewportH - scaledH) / 2).

Definition clampTranslation
  (viewportW viewportH imgW imgH scale translateX translateY : Q) : Q * Q :=
  let rw := imgW * scale in
  let rh := imgH * scale in
  let minX := viewportW - rw in
  let maxX := 0 in
  let minY := viewportH - rh in
  let maxY := 0 in
  let '(minX, maxX) :=
    if Num.ltb rw viewportW
    then ((viewportW - rw) / 2, (viewportW - rw) / 2)
    else (minX, maxX) in
  let '(minY, maxY) :=
    if Num.ltb rh viewportH
    then ((viewportH - rh) / 2, (viewportH - rh) / 2)
    else (minY, maxY) in
  (Math.max minX (Math.min maxX translateX),
   Math.max minY (Math.min maxY translateY)).

Definition getScaleLimits (viewportW viewportH imgW imgH : Q) : ScaleLimits :=
  if Num.leb viewportW 0 || Num.leb viewportH 0
     || Num.leb imgW 0 || Num.leb imgH 0
  then {| minScale := 0.001; maxScale := 8; baseScale := 1 |}
  else
    let baseScale := getCoverScale viewportW viewportH imgW imgH in
    let minScale := baseScale * MIN_ZOOM_MULTIPLIER in
    let maxScale := baseScale * MAX_ZOOM_MULTIPLIER in
    {| minScale := minScale; maxScale := maxScale; baseScale := baseScale |}.

Definition zoomAtPoint
  (viewportW viewportH imgW imgH scale newScale translateX translateY px py : Q)
  : Q * Q :=
  let factor := newScale / scale in
  let tx := px - (px - translateX) * factor in
  let ty := py - (py - translateY) * factor in
  let clamped := clampTranslation viewportW viewportH imgW imgH newScale tx ty in
  clamped.

End ViewportUtils.

(** ** View-transform store: [hooks/useImageViewTransform.ts]

    The hook as [imageCropControl.tsx] uses it: the version that tells a
    viewport resize from a new image and exports [applyScale]. *)

Module Store.
Import ViewportUtils.

(** The objects [{ width, height }] held by [lastViewportRef] and
    [lastNaturalRef]. *)
Record Size : Set := mkSize { width : Q; height : Q }.

(** What the hook keeps between renders: the [transform] state cell and the
    two refs.  [transformRef.current] is assigned the rendered [transform]
    on every render, so inside an effect it is [transform] itself. *)
Record HookState : Set := mkHookState {
  transform : ViewTransform;
  lastViewportRef : Size;
  lastNaturalRef : Size
}.

(** [useState] initial value and the initial refs. *)
Definition initialState : HookState :=
  {| transform := {| scale := 1; translateX := 0; translateY := 0 |};
     lastViewportRef := {| width := 0; height := 0 |};
     lastNaturalRef := {| width := 0; height := 0 |} |}.

Section Hook.

(** The arguments of [useImageViewTransform] that the callbacks close
    over. *)
Variables viewportWidth viewportHeight naturalWidth naturalHeight : Q.

(** The body of the fit/resize [useEffect]; it runs when one of its
    dependencies changed, and returns the state it leaves behind. *)
Definition fitEffect (isReady : bool) (st : HookState) : HookState :=
  if negb isReady || Num.leb viewportWidth 0 || Num.leb viewportHeight 0
     || Num.leb naturalWidth 0 || Num.leb naturalHeight 0
  then st
  else
    let oldW := width (lastViewportRef st) in
    let oldH := height (lastViewportRef st) in
    let oldNatW := width (lastNaturalRef st) in
    let oldNatH := height (lastNaturalRef st) in
    let viewportChanged :=
      Num.gtb oldW 0 && Num.gtb oldH 0
      && (Num.neqb oldW viewportWidth || Num.neqb oldH viewportHeight) in
    let naturalChanged :=
      Num.neqb oldNatW naturalWidth || Num.neqb oldNatH naturalHeight in
    let isResize := viewportChanged && negb naturalChanged in
    let isFirstRun := Num.eqb oldNatW 0 && Num.eqb oldNatH 0 in
    let transform' :=
      if isResize then
        let oldBaseScale := getCoverScale oldW oldH naturalWidth naturalHeight in
        let newBaseScale :=
          getCoverScale viewportWidth viewportHeight naturalWidth naturalHeight in
        let maxScale :=
          maxScale (getScaleLimits viewportWidth viewportHeight
                                   naturalWidth naturalHeight) in
        let t := transform st in
        let zoomFactor :=
          if Num.gtb oldBaseScale 0 then scale t / oldBaseScale else 1 in
        let newScale :=
          Math.max newBaseScale (Math.min maxScale (newBaseScale * zoomFactor)) in
        let imgCenterX := (oldW / 2 - translateX t) / scale t in
        let imgCenterY := (oldH / 2 - translateY t) / scale t in
        let newTx := viewportWidth / 2 - imgCenterX * newScale in
        let newTy := viewportHeight / 2 - imgCenterY * newScale in
        let clamped :=
          clampTranslation viewportWidth viewportHeight
                           naturalWidth naturalHeight newScale newTx newTy in
        {| scale := newScale;
           translateX := fst clamped; translateY := snd clamped |}
      else if naturalChanged || isFirstRun then
        let scale := getCoverScale viewportWidth viewportHeight
                                   naturalWidth naturalHeight in
        let c := getCenterTranslation viewportWidth viewportHeight
                                      naturalWidth naturalHeight scale in
        {| scale := scale; translateX := fst c; translateY := snd c |}
      else transform st in
    {| transform := transform';
       lastViewportRef := {| width := viewportWidth; height := viewportHeight |};
       lastNaturalRef := {| width := naturalWidth; height := naturalHeight |} |}.

Definition clamp (t : ViewTransform) : ViewTransform :=
  let c := clampTranslation viewportWidth viewportHeight
                            naturalWidth naturalHeight
                            (scale t) (translateX t) (translateY t) in
  {| scale := scale t; translateX := fst c; translateY := snd c |}.

(** The state updaters below are the functions passed to [setTransform]:
    they map the previous transform [prev] to the stored one. *)

Definition panBy (deltaX deltaY : Q) (prev : ViewTransform) : ViewTransform :=
  let next := {| scale := scale prev;
                 translateX := translateX prev + deltaX;
                 translateY := translateY prev + deltaY |} in
  clamp next.

(** [anchorPx] and [anchorPy] are optional: [None] is [undefined]. *)
Definition applyScale (newScale : Q) (anchorPx anchorPy : option Q)
           (prev : ViewTransform) : ViewTransform :=
  let lim := getScaleLimits viewportWidth viewportHeight
                            naturalWidth naturalHeight in
  let clampedScale :=
    Math.max (minScale lim) (Math.min (maxScale lim) newScale) in
  let px := match anchorPx with Some p => p | None => viewportWidth / 2 end in
  let py := match anchorPy with Some p => p | None => viewportHeight / 2 end in
  let z := zoomAtPoint viewportWidth viewportHeight naturalWidth naturalHeight
                       (scale prev) clampedScale
                       (translateX prev) (translateY prev) px py in
  clamp {| scale := clampedScale; translateX := fst z; translateY := snd z |}.

(** [zoomAt] reads the scale from [transformRef.current] (the transform of
    the last render, [rendered]) and hands the clamped proposal to
    [applyScale], whose updater runs on the stored transform [prev]. *)
Definition zoomAt (viewportPx viewportPy deltaScale : Q)
           (rendered prev : ViewTransform) : ViewTransform :=
  let t := rendered in
  let lim := getScaleLimits viewportWidth viewportHeight
                            naturalWidth naturalHeight in
  let proposedScale := scale t * deltaScale in
  let clampedScale :=
    Math.max (minScale lim) (Math.min (maxScale lim) proposedScale) in
  applyScale clampedScale (Some viewportPx) (Some viewportPy) prev.

(** [setTransformDirect(t)] stores [clamp(t)] whatever the previous
    transform was. *)
Definition setTransformDirect (t : ViewTransform) : ViewTransform :=
  clamp t.

End Hook.

End Store.

(** ** Coordinate bridge and effects: [components/imageCropControl.tsx] *)

Module ImageCropControl.
Import ViewportUtils.

(** [Crop] of react-image-crop; a [PixelCrop] is a [Crop] whose unit is
    ["px"]. *)
Inductive CropUnit : Set := Px | Percent.

Record Crop : Set := mkCrop {
  unit : CropUnit;
  x : Q;
  y : Q;
  width : Q;
  height : Q
}.

Definition ZOOM_MULTIPLIER_MIN : Q := 0.4.
Definition ZOOM_MULTIPLIER_MAX : Q := 3.0.

Definition defaultViewportCrop200 (viewportW viewportH : Q) : Crop :=
  let defaultW := Math.min 200 viewportW in
  let defaultH := Math.min 200 viewportH in
  let x := (viewportW - defaultW) / 2 in
  let y := (viewportH - defaultH) / 2 in
  {| unit := Px; x := x; y := y; width := defaultW; height := defaultH |}.

(** The first argument is the object [{ x, y, width, height }]; it is passed
    here as a [Crop], whose unit the function does not read. *)
Definition viewportCropToNaturalPx
  (viewportCrop : Crop) (scale tx ty naturalW naturalH : Q) : Crop :=
  let ix := (x viewportCrop - tx) / scale in
  let iy := (y viewportCrop - ty) / scale in
  let iw := width viewportCrop / scale in
  let ih := height viewportCrop / scale in
  let x1 := Math.max 0 (Math.min ix naturalW) in
  let y1 := Math.max 0 (Math.min iy naturalH) in
  let x2 := Math.max x1 (Math.min (ix + iw) naturalW) in
  let y2 := Math.max y1 (Math.min (iy + ih) naturalH) in
  {| unit := Px;
     x := x1;
     y := y1;
     width := Math.max 0 (x2 - x1);
     height := Math.max 0 (y2 - y1) |}.

Definition imageCropToViewportPx
  (c : Crop) (naturalW naturalH scale tx ty viewportW viewportH : Q) : Crop :=
  let isPercent := match unit c with Percent => true | Px => false end in
  let imgX := if isPercent then (x c / 100) * naturalW else x c in
  let imgY := if isPercent then (y c / 100) * naturalH else y c in
  let imgW := if isPercent then (width c / 100) * naturalW else width c in
  let imgH := if isPercent then (height c / 100) * naturalH else height c in
  {| unit := Px;
     x := imgX * scale + tx;
     y := imgY * scale + ty;
     width := imgW * scale;
     height := imgH * scale |}.

(** [isTransformReady], computed on every render from [naturalSize] and
    [viewportSize]. *)
Definition isTransformReady (naturalW naturalH viewportW viewportH : Q) : bool :=
  Num.gtb naturalW 0 && Num.gtb naturalH 0
  && Num.gtb viewportW 0 && Num.gtb viewportH 0.

(** The zoom-multiplier sync effect.  [hasCallback] tells whether
    [props.onZoomMultiplierChange] is set; the result is the value the
    effect passes to it, [None] when it returns without calling it. *)
Definition zoomMultiplierSync
  (hasCallback : bool) (viewportW viewportH naturalW naturalH : Q)
  (transform : ViewTransform) : option Q :=
  if negb (isTransformReady naturalW naturalH viewportW viewportH)
     || negb hasCallback
  then None
  else
    let baseScale :=
      baseScale (getScaleLimits viewportW viewportH naturalW naturalH) in
    if Num.leb baseScale 0 then None
    else
      let raw := scale transform / baseScale in
      let zoomMultiplier :=
        Math.max ZOOM_MULTIPLIER_MIN (Math.min ZOOM_MULTIPLIER_MAX raw) in
      Some zoomMultiplier.

(** The crop state of the component the crop-init effect touches: the
    [crop] state cell ([None] is [undefined]) and the two refs. *)
Record CropState : Set := mkCropState {
  crop : option Crop;
  viewportCropInitializedRef : bool;
  cropIsViewportSpaceRef : bool
}.

(** [c && c.width > 0 && c.height > 0] for an optional crop. *)
Definition usable (c : option Crop) : option Crop :=
  match c with
  | Some d => if Num.gtb (width d) 0 && Num.gtb (height d) 0 then Some d else None
  | None => None
  end.

(** The crop-init effect. *)
Definition cropInitEffect
  (usePanZoom isCroppingActive : bool) (viewportW viewportH : Q)
  (defaultCrop completedCrop : option Crop) (naturalW naturalH : Q)
  (transform : ViewTransform) (st : CropState) : CropState :=
  if negb usePanZoom || negb isCroppingActive
     || Num.leb viewportW 0 || Num.leb viewportH 0
  then
    if negb isCroppingActive
    then {| crop := crop st;
            viewportCropInitializedRef := false;
            cropIsViewportSpaceRef := cropIsViewportSpaceRef st |}
    else st
  else
    match crop st with
    | Some _ => st
    | None =>
        let fallback :=
          match usable defaultCrop with
          | Some d =>
              imageCropToViewportPx d naturalW naturalH
                (scale transform) (translateX transform) (translateY transform)
                viewportW viewportH
          | None =>
              match usable completedCrop with
              | Some c =>
                  let s := scale transform in
                  let tx := translateX transform in
                  let ty := translateY transform in
                  {| unit := Px;
                     x := x c * s + tx;
                     y := y c * s + ty;
                     width := width c * s;
                     height := height c * s |}
              | None => defaultViewportCrop200 viewportW viewportH
              end
          end in
        {| crop := Some fallback;
           viewportCropInitializedRef := true;
           cropIsViewportSpaceRef := true |}
    end.

(** The host scaling effect: when the [scaling] input changes, the zoom is
    applied around the viewport center.  The result is the transform the
    effect leaves stored, [prev] when it returns early. *)
Definition hostScalingEffect
  (scaling viewportW viewportH naturalW naturalH : Q) (prev : ViewTransform)
  : ViewTransform :=
  if negb (isTransformReady naturalW naturalH viewportW viewportH)
     || Num.leb viewportW 0 || Num.leb viewportH 0
     || Num.leb naturalW 0 || Num.leb naturalH 0
  then prev
  else
    let lim := getScaleLimits viewportW viewportH naturalW naturalH in
    if Num.leb (baseScale lim) 0 then prev
    else
      let cx := viewportW / 2 in
      let cy := viewportH / 2 in
      let newScale :=
        Math.max (minScale lim) (Math.min (maxScale lim) (baseScale lim * scaling)) in
      Store.applyScale viewportW viewportH naturalW naturalH
                       newScale (Some cx) (Some cy) prev.

(** [handleCropComplete]: the value it passes to [setCompletedCrop]. *)
Definition handleCropComplete
  (usePanZoom : bool) (pixelCrop : Crop) (transform : ViewTransform)
  (naturalW naturalH : Q) : Crop :=
  if negb usePanZoom then pixelCrop
  else
    viewportCropToNaturalPx pixelCrop
      (scale transform) (translateX transform) (translateY transform)
      naturalW naturalH.

(** [handleCropChange]: the crop state it leaves and the completed crop,
    [completedCrop] being the one stored before. *)
Definition handleCropChange
  (usePanZoom : bool) (c : Crop) (transform : ViewTransform)
  (naturalW naturalH : Q) (st : CropState) (completedCrop : option Crop)
  : CropState * option Crop :=
  let st' := {| crop := Some c;
                viewportCropInitializedRef := viewportCropInitializedRef st;
                cropIsViewportSpaceRef := true |} in
  let isPx := match unit c with Px => true | Percent => false end in
  if usePanZoom && isPx && Num.gtb naturalW 0 && Num.gtb naturalH 0
  then
    (st', Some (viewportCropToNaturalPx c
                  (scale transform) (translateX transform) (translateY transform)
                  naturalW naturalH))
  else (st', completedCrop).

(** The memoised [cropToPass], the crop handed to the crop widget. *)
Definition cropToPass
  (showControl usePanZoom isCroppingActive : bool) (st : CropState)
  (viewportW viewportH naturalW naturalH : Q) (transform : ViewTransform)
  : option Crop :=
  if negb showControl then None
  else if negb usePanZoom then
    Some (match crop st with
          | Some c => c
          | None => {| unit := Percent; x := 0; y := 0;
                       width := 100; height := 100 |}
          end)
  else if negb isCroppingActive then None
  else
    match crop st with
    | None => Some (defaultViewportCrop200 viewportW viewportH)
    | Some c =>
        if cropIsViewportSpaceRef st then Some c
        else Some (imageCropToViewportPx c naturalW naturalH
                     (scale transform) (translateX transform)
                     (translateY transform) viewportW viewportH)
    end.

(** [viewportCropForExport]: the rectangle [{ x, y, width, height }] given to
    the export hook, as a pixel crop. *)
Definition viewportCropForExport (usePanZoom : bool) (passed : option Crop)
  : option Crop :=
  match passed with
  | Some c =>
      let isPx := match unit c with Px => true | Percent => false end in
      if usePanZoom && isPx && Num.gtb (width c) 0 && Num.gtb (height c) 0
      then Some {| unit := Px; x := x c; y := y c;
                   width := width c; height := height c |}
      else None
  | None => None
  end.

(** Pan is active only when [enablePanImage] and (no Shift required or Shift
    is down). *)
Definition panModeActive (enablePanImage shiftToPanEnabled isPanMode : bool) : bool :=
  enablePanImage && (negb shiftToPanEnabled || isPanMode).

End ImageCropControl.

(** ** Pointer and keyboard handlers: [components/imageCropControl.tsx]

    The handlers of the component that arbitrate between pan, pinch and crop
    editing.  The state they work on is the three refs, the two state cells
    [isPanMode] and [isPanning], and the stored transform, which the handlers
    read as rendered: a render separates two events.  Pointer capture and
    [preventDefault] are effects on the page and are not part of the state. *)

Module Pointers.
Import ViewportUtils.

(** The fields of a pointer event that the handlers read. *)
Record PointerEvent : Set := mkPointerEvent {
  pointerId : Z;
  button : Z;
  clientX : Q;
  clientY : Q
}.

(** [panRef.current] *)
Record PanRef : Set := mkPanRef {
  startX : Q;
  startY : Q;
  startTx : Q;
  startTy : Q
}.

(** [pinchRef.current] *)
Record PinchRef : Set := mkPinchRef {
  initialDistance : Q;
  initialScale : Q;
  centerX : Q;
  centerY : Q
}.

(** [activePointersRef.current]: a [Map] from pointer id to the object
    [{ clientX, clientY }], here a pair, kept in insertion order as a [Map]
    keeps it. *)
Definition PointerMap : Set := list (Z * (Q * Q)).

(** [map.set(k, v)]: an existing key keeps its place. *)
Fixpoint mapSet (k : Z) (v : Q * Q) (m : PointerMap) : PointerMap :=
  match m with
  | nil => (k, v) :: nil
  | (k', v') :: rest =>
      if Z.eqb k k' then (k, v) :: rest else (k', v') :: mapSet k v rest
  end.

(** [map.delete(k)] *)
Fixpoint mapDelete (k : Z) (m : PointerMap) : PointerMap :=
  match m with
  | nil => nil
  | (k', v') :: rest =>
      if Z.eqb k k' then mapDelete k rest else (k', v') :: mapDelete k rest
  end.

Record State : Set := mkState {
  activePointersRef : PointerMap;
  panRef : option PanRef;
  pinchRef : option PinchRef;
  isPanMode : bool;
  isPanning : bool;
  transform : ViewTransform
}.

(** The component before any event, showing the transform [t]. *)
Definition initialState (t : ViewTransform) : State :=
  {| activePointersRef := nil; panRef := None; pinchRef := None;
     isPanMode := false; isPanning := false; transform := t |}.

Definition getCenter (a b : Q * Q) : Q * Q :=
  ((fst a + fst b) / 2, (snd a + snd b) / 2).

Section Handlers.

(** [Math.hypot] has no rational model; the handlers are embedded for any
    function in its place. *)
Variable hypot : Q -> Q -> Q.

(** What the component holds fixed while the handlers run: the two pan
    settings of the host, the origin [(left, top)] of the bounding rectangle
    of the viewport element ([None] when the element is not mounted), and the
    measured sizes. *)
Variables enablePanImage shiftToPanEnabled : bool.
Variable rect : option (Q * Q).
Variables viewportW viewportH naturalW naturalH : Q.

Definition getDistance (a b : Q * Q) : Q :=
  hypot (fst b - fst a) (snd b - snd a).

(** The pinch branch of [handlePointerMove] once the distance [dist] of the
    two pointers is known: the transform it leaves stored. *)
Definition pinchZoom (pinch : PinchRef) (dist : Q) (t : ViewTransform)
  : ViewTransform :=
  if Num.gtb (initialDistance pinch) 0 && Num.gtb (scale t) 0 then
    let targetScale := initialScale pinch * (dist / initialDistance pinch) in
    let factor := targetScale / scale t in
    Store.zoomAt viewportW viewportH naturalW naturalH
                 (centerX pinch) (centerY pinch) factor t t
  else t.

(** The pan branch of [handlePointerMove]: the transform it stores. *)
Definition panDrag (p : PanRef) (e : PointerEvent) (t : ViewTransform)
  : ViewTransform :=
  let totalDx := clientX e - startX p in
  let totalDy := clientY e - startY p in
  Store.setTransformDirect viewportW viewportH naturalW naturalH
    {| scale := scale t;
       translateX := startTx p + totalDx;
       translateY := startTy p + totalDy |}.

Definition handlePointerDown (e : PointerEvent) (s : State) : State :=
  if negb (ImageCropControl.isTransformReady naturalW naturalH viewportW viewportH)
  then s
  else if negb (Z.eqb (button e) 0) then s
  else
    let map := mapSet (pointerId e) (clientX e, clientY e) (activePointersRef s) in
    match map with
    | (_, p1) :: (_, p2) :: nil =>
        let center := getCenter p1 p2 in
        {| activePointersRef := map;
           panRef := None;
           pinchRef :=
             match rect with
             | Some (rectLeft, rectTop) =>
                 Some {| initialDistance := getDistance p1 p2;
                         initialScale := scale (transform s);
                         centerX := fst center - rectLeft;
                         centerY := snd center - rectTop |}
             | None => None
             end;
           isPanMode := isPanMode s;
           isPanning := isPanning s;
           transform := transform s |}
    | _ :: nil =>
        if ImageCropControl.panModeActive enablePanImage shiftToPanEnabled
                                          (isPanMode s)
        then
          {| activePointersRef := map;
             panRef := Some {| startX := clientX e;
                               startY := clientY e;
                               startTx := translateX (transform s);
                               startTy := translateY (transform s) |};
             pinchRef := None;
             isPanMode := isPanMode s;
             isPanning := true;
             transform := transform s |}
        else
          {| activePointersRef := map; panRef := panRef s;
             pinchRef := pinchRef s; isPanMode := isPanMode s;
             isPanning := isPanning s; transform := transform s |}
    | _ =>
        {| activePointersRef := map; panRef := panRef s;
           pinchRef := pinchRef s; isPanMode := isPanMode s;
           isPanning := isPanning s; transform := transform s |}
    end.

Definition handlePointerMove (e : PointerEvent) (s : State) : State :=
  let map := mapSet (pointerId e) (clientX e, clientY e) (activePointersRef s) in
  let store t :=
    {| activePointersRef := map; panRef := panRef s; pinchRef := pinchRef s;
       isPanMode := isPanMode s; isPanning := isPanning s; transform := t |} in
  let panOrNothing :=
    match panRef s with
    | None => store (transform s)
    | Some p => store (panDrag p e (transform s))
    end in
  match pinchRef s, map with
  | Some pinch, (_, p1) :: (_, p2) :: nil =>
      store (pinchZoom pinch (getDistance p1 p2) (transform s))
  | _, _ => panOrNothing
  end.

Definition handlePointerUp (e : PointerEvent) (s : State) : State :=
  let map := mapDelete (pointerId e) (activePointersRef s) in
  if Z.eqb (button e) 0 then
    {| activePointersRef := map;
       panRef := None;
       pinchRef := if negb (Nat.eqb (List.length map) 2) then None else pinchRef s;
       isPanMode := isPanMode s;
       isPanning := false;
       transform := transform s |}
  else
    {| activePointersRef := map; panRef := panRef s; pinchRef := pinchRef s;
       isPanMode := isPanMode s; isPanning := isPanning s;
       transform := transform s |}.

Definition handlePointerCancel (e : PointerEvent) (s : State) : State :=
  {| activePointersRef := mapDelete (pointerId e) (activePointersRef s);
     panRef := None;
     pinchRef := None;
     isPanMode := isPanMode s;
     isPanning := false;
     transform := transform s |}.

(** [onKeyDown]/[onKeyUp] with [isShift] telling whether [e.key] is
    ["Shift"], and [clearPanModeOnLeave]. *)
Definition setPanMode (v : bool) (s : State) : State :=
  {| activePointersRef := activePointersRef s; panRef := panRef s;
     pinchRef := pinchRef s; isPanMode := v; isPanning := isPanning s;
     transform := transform s |}.

Definition onKeyDown (isShift : bool) (s : State) : State :=
  if isShift then setPanMode true s else s.

Definition onKeyUp (isShift : bool) (s : State) : State :=
  if isShift then setPanMode false s else s.

Definition clearPanModeOnLeave (s : State) : State := setPanMode false s.

(** The events the handlers are attached to. *)
Inductive Event : Set :=
| PointerDown (e : PointerEvent)
| PointerMove (e : PointerEvent)
| PointerUp (e : PointerEvent)
| PointerCancel (e : PointerEvent)
| KeyDown (isShift : bool)
| KeyUp (isShift : bool)
| Leave.

Definition handle (ev : Event) (s : State) : State :=
  match ev with
  | PointerDown e => handlePointerDown e s
  | PointerMove e => handlePointerMove e s
  | PointerUp e => handlePointerUp e s
  | PointerCancel e => handlePointerCancel e s
  | KeyDown k => onKeyDown k s
  | KeyUp k => onKeyUp k s
  | Leave => clearPanModeOnLeave s
  end.

(** The state after a sequence of events, first event first. *)
Fixpoint run (evs : list Event) (s : State) : State :=
  match evs with
  | nil => s
  | ev :: rest => run rest (handle ev s)
  end.

End Handlers.

End Pointers.

(** ** Export of the crop window: [hooks/useCropToBase64.ts] *)

Module CropToBase64.
Import ViewportUtils.

(** [Math.round]: the nearest integer, halves rounded up. *)
Definition Math_round (v : Q) : Q := inject_Z (Qfloor (v + (1 # 2))).

(** What one run of the export produces. *)
Inductive Export : Set :=
| Placeholder
    (** [onCropComplete(getBlankImageBase64())] *)
| Nothing
    (** it returns without calling back *)
| Canvas (width height : Q) (ellipseClip : bool) (dx dy dw dh : Q).
    (** a canvas of [width] by [height], clipped to the inscribed ellipse
        when [ellipseClip], on which the whole image is drawn with
        [drawImage(img, 0, 0, imgW, imgH, dx, dy, dw, dh)] *)

(** The animation-frame callback of the viewport-based export.  [img] is the
    natural size of the image element found at frame time ([None] when there
    is none), [imgW] and [imgH] the natural size read when the frame was
    requested, [refState] the value of [exportStateRef?.current], and
    [viewportCrop], [transform] the values the effect closed over.  A 2d
    context is taken to be available. *)
Definition exportFrame
  (img : option (Q * Q)) (imgW imgH : Q)
  (refState : option (ImageCropControl.Crop * ViewTransform))
  (viewportCrop : ImageCropControl.Crop) (transform : ViewTransform)
  (circularCrop : bool) : Export :=
  match img with
  | None => Nothing
  | Some (naturalWidth, naturalHeight) =>
      if Num.neqb naturalWidth imgW || Num.neqb naturalHeight imgH then Nothing
      else
        let state :=
          match refState with
          | Some st => st
          | None => (viewportCrop, transform)
          end in
        let cropRect := fst state in
        let t := snd state in
        let x := Math_round (ImageCropControl.x cropRect) in
        let y := Math_round (ImageCropControl.y cropRect) in
        let w := Math_round (ImageCropControl.width cropRect) in
        let h := Math_round (ImageCropControl.height cropRect) in
        if Num.leb w 0 || Num.leb h 0 then Placeholder
        else
          let dx := translateX t - x in
          let dy := translateY t - y in
          let dw := imgW * scale t in
          let dh := imgH * scale t in
          Canvas w h circularCrop dx dy dw dh
  end.

End CropToBase64.

(** ** Outputs of the control: [index.ts] *)

Module ImageCrop.

(** [{ action, x, y }] *)
Record ActionOutput : Set := mkActionOutput {
  action : string;
  x : Q;
  y : Q
}.

(** The private fields of the control that its callbacks and [getOutputs]
    use.  A field that [init] leaves unset is falsy: [false] or [None].
    [_dropToken] is an integer counter. *)
Record Control : Set := mkControl {
  _actionDragStart : bool;
  _actionDragEnd : bool;
  _actionCropComplete : bool;
  _cropResults : option string;
  _actionOutput : option ActionOutput;
  _zoomMultiplier : Q;
  _isImageLoaded : bool;
  _droppedImageBase64 : option string;
  _dropToken : Z;
  _internalImageDataUrl : option string;
  _overrideHostImage : bool;
  _lastHostImageSignature : option string
}.

(** The fields as [init] leaves them. *)
Definition init : Control :=
  {| _actionDragStart := false; _actionDragEnd := false;
     _actionCropComplete := false; _cropResults := None;
     _actionOutput := None; _zoomMultiplier := 1; _isImageLoaded := false;
     _droppedImageBase64 := None; _dropToken := 0%Z;
     _internalImageDataUrl := None; _overrideHostImage := false;
     _lastHostImageSignature := None |}.

Definition resetControlState (c : Control) : Control :=
  {| _actionDragStart := _actionDragStart c;
     _actionDragEnd := _actionDragEnd c;
     _actionCropComplete := _actionCropComplete c;
     _cropResults := _cropResults c;
     _actionOutput := _actionOutput c;
     _zoomMultiplier := _zoomMultiplier c;
     _isImageLoaded := false;
     _droppedImageBase64 := None;
     _dropToken := _dropToken c;
     _internalImageDataUrl := None;
     _overrideHostImage := false;
     _lastHostImageSignature := None |}.

Definition onCropComplete (results : string) (c : Control) : Control :=
  {| _actionDragStart := _actionDragStart c;
     _actionDragEnd := _actionDragEnd c;
     _actionCropComplete := true;
     _cropResults := Some results;
     _actionOutput := _actionOutput c;
     _zoomMultiplier := _zoomMultiplier c;
     _isImageLoaded := _isImageLoaded c;
     _droppedImageBase64 := _droppedImageBase64 c;
     _dropToken := _dropToken c;
     _internalImageDataUrl := _internalImageDataUrl c;
     _overrideHostImage := _overrideHostImage c;
     _lastHostImageSignature := _lastHostImageSignature c |}.

(** [onDragStart] and [onDragEnd] read [e.clientX] and [e.clientY]. *)
Definition onDragStart (clientX clientY : Q) (c : Control) : Control :=
  {| _actionDragStart := true;
     _actionDragEnd := _actionDragEnd c;
     _actionCropComplete := _actionCropComplete c;
     _cropResults := _cropResults c;
     _actionOutput :=
       Some {| action := "dragStart"; x := clientX; y := clientY |};
     _zoomMultiplier := _zoomMultiplier c;
     _isImageLoaded := _isImageLoaded c;
     _droppedImageBase64 := _droppedImageBase64 c;
     _dropToken := _dropToken c;
     _internalImageDataUrl := _internalImageDataUrl c;
     _overrideHostImage := _overrideHostImage c;
     _lastHostImageSignature := _lastHostImageSignature c |}.

Definition onDragEnd (clientX clientY : Q) (c : Control) : Control :=
  {| _actionDragStart := _actionDragStart c;
     _actionDragEnd := true;
     _actionCropComplete := _actionCropComplete c;
     _cropResults := _cropResults c;
     _actionOutput :=
       Some {| action := "dragEnd"; x := clientX; y := clientY |};
     _zoomMultiplier := _zoomMultiplier c;
     _isImageLoaded := _isImageLoaded c;
     _droppedImageBase64 := _droppedImageBase64 c;
     _dropToken := _dropToken c;
     _internalImageDataUrl := _internalImageDataUrl c;
     _overrideHostImage := _overrideHostImage c;
     _lastHostImageSignature := _lastHostImageSignature c |}.

Definition onZoomMultiplierChange (value : Q) (c : Control) : Control :=
  {| _actionDragStart := _actionDragStart c;
     _actionDragEnd := _actionDragEnd c;
     _actionCropComplete := _actionCropComplete c;
     _cropResults := _cropResults c;
     _actionOutput := _actionOutput c;
     _zoomMultiplier := value;
     _isImageLoaded := _isImageLoaded c;
     _droppedImageBase64 := _droppedImageBase64 c;
     _dropToken := _dropToken c;
     _internalImageDataUrl := _internalImageDataUrl c;
     _overrideHostImage := _overrideHostImage c;
     _lastHostImageSignature := _lastHostImageSignature c |}.

Definition onImageLoadedChange (loaded : bool) (c : Control) : Control :=
  {| _actionDragStart := _actionDragStart c;
     _actionDragEnd := _actionDragEnd c;
     _actionCropComplete := _actionCropComplete c;
     _cropResults := _cropResults c;
     _actionOutput := _actionOutput c;
     _zoomMultiplier := _zoomMultiplier c;
     _isImageLoaded := loaded;
     _droppedImageBase64 := _droppedImageBase64 c;
     _dropToken := _dropToken c;
     _internalImageDataUrl := _internalImageDataUrl c;
     _overrideHostImage := _overrideHostImage c;
     _lastHostImageSignature := _lastHostImageSignature c |}.

Definition onDropSuccess (base64 : string) (c : Control) : Control :=
  {| _actionDragStart := _actionDragStart c;
     _actionDragEnd := _actionDragEnd c;
     _actionCropComplete := _actionCropComplete c;
     _cropResults := _cropResults c;
     _actionOutput := _actionOutput c;
     _zoomMultiplier := _zoomMultiplier c;
     _isImageLoaded := true;
     _droppedImageBase64 := Some base64;
     _dropToken := (_dropToken c + 1)%Z;
     _internalImageDataUrl := Some base64;
     _overrideHostImage := true;
     _lastHostImageSignature := _lastHostImageSignature c |}.

(** [IOutputs]; a property that is not set is [None]. *)
Record Outputs : Set := mkOutputs {
  actionOutput : option ActionOutput;
  imageOutput : option string;
  zoomMultiplier : Q;
  isImageLoaded : bool;
  droppedImageBase64 : option string;
  dropToken : Z
}.

(** A string is truthy when it is not empty. *)
Definition truthy (s : option string) : bool :=
  match s with
  | Some v => negb (String.eqb v "")
  | None => false
  end.

(** [getOutputs]: the outputs it returns and the fields it leaves. *)
Definition getOutputs (c : Control) : Outputs * Control :=
  let imageOutput :=
    if _actionCropComplete c
    then (if truthy (_cropResults c) then _cropResults c else None)
    else None in
  let actionOutput :=
    if _actionDragStart c || _actionDragEnd c then _actionOutput c else None in
  ({| actionOutput := actionOutput;
      imageOutput := imageOutput;
      zoomMultiplier := _zoomMultiplier c;
      isImageLoaded := _isImageLoaded c;
      droppedImageBase64 := _droppedImageBase64 c;
      dropToken := _dropToken c |},
   {| _actionDragStart := _actionDragStart c;
      _actionDragEnd := _actionDragEnd c;
      _actionCropComplete := false;
      _cropResults := _cropResults c;
      _actionOutput :=
        if _actionDragStart c || _actionDragEnd c then None else _actionOutput c;
      _zoomMultiplier := _zoomMultiplier c;
      _isImageLoaded := _isImageLoaded c;
      _droppedImageBase64 := _droppedImageBase64 c;
      _dropToken := _dropToken c;
      _internalImageDataUrl := _internalImageDataUrl c;
      _overrideHostImage := _overrideHostImage c;
      _lastHostImageSignature := _lastHostImageSignature c |}).

(** What can happen to the control between two renders: one of its callbacks
    is called, the host changes the clear token, or the framework reads the
    outputs. *)
Inductive Call : Set :=
| CropComplete (results : string)
| DragStart (clientX clientY : Q)
| DragEnd (clientX clientY : Q)
| ZoomMultiplierChange (value : Q)
| ImageLoadedChange (loaded : bool)
| DropSuccess (base64 : string)
| Reset
| GetOutputs.

Definition call (k : Call) (c : Control) : Control :=
  match k with
  | CropComplete r => onCropComplete r c
  | DragStart px py => onDragStart px py c
  | DragEnd px py => onDragEnd px py c
  | ZoomMultiplierChange v => onZoomMultiplierChange v c
  | ImageLoadedChange b => onImageLoadedChange b c
  | DropSuccess b => onDropSuccess b c
  | Reset => resetControlState c
  | GetOutputs => snd (getOutputs c)
  end.

(** The fields after a sequence of calls, first call first. *)
Fixpoint calls (ks : list Call) (c : Control) : Control :=
  match ks with
  | nil => c
  | k :: rest => calls rest (call k c)
  end.

(** The number of [DropSuccess] calls in a sequence. *)
Fixpoint drops (ks : list Call) : Z :=
  match ks with
  | nil => 0%Z
  | DropSuccess _ :: rest => (1 + drops rest)%Z
  | _ :: rest => drops rest
  end.

(** A call other than [onCropComplete] and [getOutputs]. *)
Definition leavesImageOutput (k : Call) : bool :=
  match k with
  | CropComplete _ | GetOutputs => false
  | _ => true
  end.

End ImageCrop.

(** ** Image source selection: [hooks/useImageSrc.ts] *)

Module ImageSrc.

(** [hostIsValid], [hostSrc] being the host input after [stripQuotes] and
    [trim]. *)
Definition hostIsValid (hostSrc : string) : bool :=
  let hostIsEmpty := String.eqb hostSrc "" in
  negb hostIsEmpty && String.prefix "data:image/" hostSrc
  && Nat.ltb 200 (String.length hostSrc).

(** The source the hook returns as [imageSrc]. *)
Definition effectiveSrc
  (hostSrc : string) (internalImageDataUrl : option string)
  (overrideHostImage : bool) : option string :=
  if overrideHostImage && ImageCrop.truthy internalImageDataUrl
  then internalImageDataUrl
  else if hostIsValid hostSrc then Some hostSrc
  else if ImageCrop.truthy internalImageDataUrl then internalImageDataUrl
  else None.

Definition isRealImageSource
  (hostSrc : string) (internalImageDataUrl : option string)
  (overrideHostImage : bool) : bool :=
  hostIsValid hostSrc
  || (overrideHostImage && ImageCrop.truthy internalImageDataUrl)
  || ImageCrop.truthy internalImageDataUrl.

End ImageSrc.

(** ** Predicates used by the statements *)

Import ViewportUtils.

(** Two transforms hold the same numbers. *)
Definition transform_eq (a b : ViewTransform) : Prop :=
  scale a == scale b /\ translateX a == translateX b
  /\ translateY a == translateY b.

(** Two translations [{ translateX, translateY }] hold the same numbers. *)
Definition translation_eq (a b : Q * Q) : Prop :=
  fst a == fst b /\ snd a == snd b.

(** The cover condition on one axis: [viewport] is the viewport extent,
    [img] the natural extent of the image and [t] the translation.  Either
    the scaled image is at least as long as the viewport and spans it with no
    gap, or it is shorter and sits exactly centered. *)
Definition covers_axis (viewport img scale t : Q) : Prop :=
  (viewport <= img * scale -> viewport - img * scale <= t /\ t <= 0)
  /\ (img * scale < viewport -> t == (viewport - img * scale) / 2).

(** The cover condition of a transform on both axes. *)
Definition covers (viewportW viewportH imgW imgH : Q) (t : ViewTransform) : Prop :=
  covers_axis viewportW imgW (scale t) (translateX t)
  /\ covers_axis viewportH imgH (scale t) (translateY t).

(** The image coordinate shown at viewport coordinate [p] on one axis, under
    a transform with translation [translate] on that axis and scale
    [scale]. *)
Definition imagePointUnder (p translate scale : Q) : Q := (p - translate) / scale.

(** ** Comparisons and [Math.max]/[Math.min] *)

Lemma leb_true_iff a b : Num.leb a b = true <-> a <= b.
Proof. apply Qle_bool_iff. Qed.

Lemma leb_false_iff a b : Num.leb a b = false <-> b < a.
Proof.
  unfold Num.leb. split; intro H.
  - apply Qnot_le_lt. intro L. apply Qle_bool_iff in L. congruence.
  - destruct (Qle_bool a b) eqn:E; [|reflexivity].
    apply Qle_bool_iff in E. lra.
Qed.

Lemma ltb_true_iff a b : Num.ltb a b = true <-> a < b.
Proof.
  unfold Num.ltb. rewrite negb_true_iff. apply (leb_false_iff b a).
Qed.

Lemma ltb_false_iff a b : Num.ltb a b = false <-> b <= a.
Proof.
  unfold Num.ltb. rewrite negb_false_iff. apply Qle_bool_iff.
Qed.

Lemma gtb_true_iff a b : Num.gtb a b = true <-> b < a.
Proof. apply ltb_true_iff. Qed.

Lemma gtb_false_iff a b : Num.gtb a b = false <-> a <= b.
Proof. apply ltb_false_iff. Qed.

Lemma eqb_true_iff a b : Num.eqb a b = true <-> a == b.
Proof. apply Qeq_bool_iff. Qed.

Lemma neqb_true_iff a b : Num.neqb a b = true <-> ~ a == b.
Proof.
  unfold Num.neqb. rewrite negb_true_iff. split; intro H.
  - now apply Qeq_bool_neq.
  - destruct (Qeq_bool a b) eqn:E; [|reflexivity].
    apply Qeq_bool_iff in E. contradiction.
Qed.

Lemma neqb_false_iff a b : Num.neqb a b = false <-> a == b.
Proof.
  unfold Num.neqb. rewrite negb_false_iff. apply Qeq_bool_iff.
Qed.

(** Case analysis on a comparison, leaving the order fact in the context. *)
Ltac case_leb a b :=
  let E := fresh "E" in
  destruct (Num.leb a b) eqn:E;
  [apply leb_true_iff in E | apply leb_false_iff in E].

Ltac case_ltb a b :=
  let E := fresh "E" in
  destruct (Num.ltb a b) eqn:E;
  [apply ltb_true_iff in E | apply ltb_false_iff in E].

(** Replace every [Qmax]/[Qmin] by a fresh number characterised by
    [Q.max_spec]/[Q.min_spec], so that linear arithmetic can finish. *)
Ltac name_extremum t spec :=
  let m := fresh "m" in
  let Hm := fresh "Hm" in
  let Em := fresh "Em" in
  pose proof spec as Hm; remember t as m eqn:Em in *; clear Em.

Ltac minmax :=
  unfold clamp3, Math.max, Math.min in *;
  repeat match goal with
  | |- context [Qmax ?a ?b] => name_extremum (Qmax a b) (Q.max_spec a b)
  | |- context [Qmin ?a ?b] => name_extremum (Qmin a b) (Q.min_spec a b)
  | H : context [Qmax ?a ?b] |- _ => name_extremum (Qmax a b) (Q.max_spec a b)
  | H : context [Qmin ?a ?b] |- _ => name_extremum (Qmin a b) (Q.min_spec a b)
  end.

(** Linear arithmetic on [Q] takes a quotient as an atom; a division by 2 is
    turned into a multiplication by [1/2] first. *)
Ltac halves := unfold Qdiv in *; change (/ 2) with (1 # 2) in *.

Lemma clamp3_bounds v lo hi : lo <= hi -> lo <= clamp3 v lo hi /\ clamp3 v lo hi <= hi.
Proof. intro H. minmax. lra. Qed.

Lemma clamp3_lower v lo hi : lo <= clamp3 v lo hi.
Proof. minmax. lra. Qed.

Lemma Qdiv_pos a b : 0 < a -> 0 < b -> 0 < a / b.
Proof.
  intros Ha Hb. apply Qlt_shift_div_l; [exact Hb | lra].
Qed.

(** ** Geometry kernel *)

Lemma getCoverScale_positive_image vw vh iw ih :
  0 < iw -> 0 < ih ->
  getCoverScale vw vh iw ih = Math.max (vw / iw) (vh / ih).
Proof.
  intros Hw Hh. unfold getCoverScale.
  apply leb_false_iff in Hw, Hh. now rewrite Hw, Hh.
Qed.

Lemma getCoverScale_pos vw vh iw ih :
  0 < vw -> 0 < vh -> 0 < iw -> 0 < ih -> 0 < getCoverScale vw vh iw ih.
Proof.
  intros Hvw Hvh Hiw Hih. rewrite getCoverScale_positive_image by assumption.
  pose proof (Qdiv_pos vw iw Hvw Hiw). pose proof (Qdiv_pos vh ih Hvh Hih).
  minmax. lra.
Qed.

Lemma getScaleLimits_positive_dims vw vh iw ih :
  0 < vw -> 0 < vh -> 0 < iw -> 0 < ih ->
  getScaleLimits vw vh iw ih =
  let baseScale := getCoverScale vw vh iw ih in
  {| minScale := baseScale * MIN_ZOOM_MULTIPLIER;
     maxScale := baseScale * MAX_ZOOM_MULTIPLIER;
     baseScale := baseScale |}.
Proof.
  intros Hvw Hvh Hiw Hih. unfold getScaleLimits.
  apply leb_false_iff in Hvw, Hvh, Hiw, Hih. now rewrite Hvw, Hvh, Hiw, Hih.
Qed.

Lemma getScaleLimits_degenerate vw vh iw ih :
  vw <= 0 \/ vh <= 0 \/ iw <= 0 \/ ih <= 0 ->
  getScaleLimits vw vh iw ih =
  {| minScale := 0.001; maxScale := 8; baseScale := 1 |}.
Proof.
  intro H. unfold getScaleLimits.
  assert (E : Num.leb vw 0 || Num.leb vh 0 || Num.leb iw 0 || Num.leb ih 0 = true).
  { rewrite !orb_true_iff, !leb_true_iff. tauto. }
  now rewrite E.
Qed.

(** Whatever the dimensions, the scale limits are positive and ordered. *)
Lemma getScaleLimits_ordered vw vh iw ih :
  let lim := getScaleLimits vw vh iw ih in
  0 < minScale lim /\ minScale lim < maxScale lim.
Proof.
  unfold getScaleLimits.
  case_leb vw 0; [simpl; lra|]. case_leb vh 0; [simpl; lra|].
  case_leb iw 0; [simpl; lra|]. case_leb ih 0; [simpl; lra|].
  simpl. pose proof (getCoverScale_pos vw vh iw ih E E0 E1 E2).
  unfold MIN_ZOOM_MULTIPLIER, MAX_ZOOM_MULTIPLIER. lra.
Qed.

(** The clamp of one axis, as [clampTranslation] computes it. *)
Lemma clampTranslation_covers vw vh iw ih s tx ty :
  covers_axis vw iw s (fst (clampTranslation vw vh iw ih s tx ty))
  /\ covers_axis vh ih s (snd (clampTranslation vw vh iw ih s tx ty)).
Proof.
  unfold clampTranslation, covers_axis.
  case_ltb (iw * s) vw; case_ltb (ih * s) vh; simpl; minmax; lra.
Qed.

Lemma clampTranslation_idem vw vh iw ih s tx ty :
  let c := clampTranslation vw vh iw ih s tx ty in
  translation_eq (clampTranslation vw vh iw ih s (fst c) (snd c)) c.
Proof.
  unfold clampTranslation, translation_eq.
  case_ltb (iw * s) vw; case_ltb (ih * s) vh; simpl; minmax; lra.
Qed.

(** A translation that already satisfies the cover condition is left where
    it is. *)
Lemma clampTranslation_fixed vw vh iw ih s tx ty :
  covers_axis vw iw s tx -> covers_axis vh ih s ty ->
  translation_eq (clampTranslation vw vh iw ih s tx ty) (tx, ty).
Proof.
  unfold clampTranslation, translation_eq, covers_axis.
  intros [Hx1 Hx2] [Hy1 Hy2].
  case_ltb (iw * s) vw; case_ltb (ih * s) vh; simpl; minmax;
    repeat match goal with
    | H : ?a < ?b -> _, L : ?a < ?b |- _ => specialize (H L)
    | H : ?a <= ?b -> _, L : ?a <= ?b |- _ => specialize (H L)
    end; lra.
Qed.

Lemma clamp_covers vw vh iw ih t :
  covers vw vh iw ih (Store.clamp vw vh iw ih t).
Proof.
  unfold covers, Store.clamp. simpl. apply clampTranslation_covers.
Qed.

(** ** Store operations *)

Lemma panBy_covers vw vh iw ih dx dy prev :
  covers vw vh iw ih (Store.panBy vw vh iw ih dx dy prev).
Proof. unfold Store.panBy. apply clamp_covers. Qed.

Lemma applyScale_covers vw vh iw ih newScale ax ay prev :
  covers vw vh iw ih (Store.applyScale vw vh iw ih newScale ax ay prev).
Proof. unfold Store.applyScale. apply clamp_covers. Qed.

Lemma applyScale_scale vw vh iw ih newScale ax ay prev :
  let lim := getScaleLimits vw vh iw ih in
  scale (Store.applyScale vw vh iw ih newScale ax ay prev)
  = clamp3 newScale (minScale lim) (maxScale lim).
Proof. reflexivity. Qed.

Lemma clamp_idem vw vh iw ih t :
  transform_eq (Store.clamp vw vh iw ih (Store.clamp vw vh iw ih t))
               (Store.clamp vw vh iw ih t).
Proof.
  unfold transform_eq, Store.clamp. simpl.
  split; [reflexivity | apply clampTranslation_idem].
Qed.

(** ** The properties of the specification *)

(** C1 (cover invariant).  For positive viewport and image dimensions and a
    positive scale, the translation returned by [clampTranslation] satisfies
    the cover condition on both axes: where the scaled image is at least as
    long as the viewport, [viewport - img*scale <= translate <= 0]; where it
    is shorter, [translate = (viewport - img*scale)/2].  The transform stored
    by [panBy], [applyScale], [zoomAt] and [setTransformDirect] therefore
    satisfies it as well. *)
Theorem cover_invariant
  (vw vh iw ih s tx ty : Q)
  (Hvw : 0 < vw) (Hvh : 0 < vh) (Hiw : 0 < iw) (Hih : 0 < ih) (Hs : 0 < s) :
  let c := clampTranslation vw vh iw ih s tx ty in
  let prev := {| scale := s; translateX := tx; translateY := ty |} in
  covers_axis vw iw s (fst c) /\ covers_axis vh ih s (snd c)
  /\ (forall dx dy, covers vw vh iw ih (Store.panBy vw vh iw ih dx dy prev))
  /\ (forall newScale ax ay,
        covers vw vh iw ih (Store.applyScale vw vh iw ih newScale ax ay prev))
  /\ (forall px py factor rendered,
        covers vw vh iw ih (Store.zoomAt vw vh iw ih px py factor rendered prev))
  /\ covers vw vh iw ih (Store.setTransformDirect vw vh iw ih prev).
Proof.
  intros c prev.
  destruct (clampTranslation_covers vw vh iw ih s tx ty) as [Hx Hy].
  split; [exact Hx|]. split; [exact Hy|].
  split; [intros; apply panBy_covers|].
  split; [intros; apply applyScale_covers|].
  split; [intros; apply applyScale_covers|].
  apply clamp_covers.
Qed.

(** The invariant at work: a pan-drag transform of a 1920x1080 image in a
    450x350 viewport, stored by [setTransformDirect]. *)
Lemma cover_invariant_witness :
  let prev := {| scale := 1; translateX := 40; translateY := -900 |} in
  covers 450 350 1920 1080 (Store.setTransformDirect 450 350 1920 1080 prev).
Proof.
  intro prev.
  apply (cover_invariant 450 350 1920 1080 1 40 (-900));
    reflexivity.
Defined.

(** C2 as the specification words it does not hold.  For the 450x350
    viewport and the 1920x1080 image, the first fit of the store does not
    give a negative [translateY] together with a [translateX] within half a
    pixel of 0: [translateY] is not negative, and [translateX] is below -86. *)
Lemma initial_fit_450x350_not_as_stated :
  let t := Store.transform
             (Store.fitEffect 450 350 1920 1080 true Store.initialState) in
  ~ (translateY t < 0 /\ - (1 # 2) <= translateX t /\ translateX t <= 1 # 2).
Proof.
  intros t [Hy [Hx _]]. vm_compute in Hx. apply Hx. reflexivity.
Qed.

(** C2 (scenario: initial cover fit), amended.  For a viewport of 450x350 and
    an image of 1920x1080, [getCoverScale] gives
    [max(450/1920, 350/1080) = 35/108], about 0.3241; the centering
    translation has [translateX = -775/9], about -86.11, negative: the scaled
    image is wider than the viewport and is centered horizontally; and
    [translateY = 0]: the scaled image is exactly as tall as the viewport.
    The first run of the fit effect stores this transform. *)
Theorem initial_fit_450x350 :
  let baseScale := getCoverScale 450 350 1920 1080 in
  let c := getCenterTranslation 450 350 1920 1080 baseScale in
  baseScale == Math.max (450 / 1920) (350 / 1080)
  /\ baseScale == 35 # 108
  /\ 0.32405 < baseScale /\ baseScale < 0.32415
  /\ fst c == - (775 # 9) /\ fst c < -86 /\ -87 < fst c
  /\ snd c == 0
  /\ 1920 * baseScale > 450 /\ 1080 * baseScale == 350
  /\ transform_eq
       (Store.transform
          (Store.fitEffect 450 350 1920 1080 true Store.initialState))
       {| scale := baseScale; translateX := fst c; translateY := snd c |}.
Proof.
  vm_compute. intuition congruence.
Qed.

(** C3 (anchor preservation).  For a positive old scale and a positive new
    scale, whenever the final [clampTranslation] step of [zoomAtPoint] leaves
    the translation it is given unchanged, the image point under the anchor
    [(px, py)] is the same before and after:
    [(px - tx')/newScale = (px - tx)/oldScale], and likewise for [y]. *)
Theorem zoomAtPoint_preserves_anchor
  (vw vh iw ih oldScale newScale tx ty px py : Q)
  (Hold : 0 < oldScale) (Hnew : 0 < newScale)
  (Hunclamped :
     let factor := newScale / oldScale in
     let tx0 := px - (px - tx) * factor in
     let ty0 := py - (py - ty) * factor in
     translation_eq (clampTranslation vw vh iw ih newScale tx0 ty0) (tx0, ty0)) :
  let z := zoomAtPoint vw vh iw ih oldScale newScale tx ty px py in
  imagePointUnder px (fst z) newScale == imagePointUnder px tx oldScale
  /\ imagePointUnder py (snd z) newScale == imagePointUnder py ty oldScale.
Proof.
  unfold zoomAtPoint, imagePointUnder. cbv zeta in *.
  destruct Hunclamped as [Hx Hy]. simpl in Hx, Hy.
  rewrite Hx, Hy. split; field; split; lra.
Qed.

(** Zooming from scale 1 to 2 around (50, 25) in a 100x100 viewport: no clamp
    boundary is hit and the anchor stays put. *)
Lemma zoomAtPoint_preserves_anchor_witness :
  let z := zoomAtPoint 100 100 100 100 1 2 0 0 50 25 in
  imagePointUnder 50 (fst z) 2 == imagePointUnder 50 0 1
  /\ imagePointUnder 25 (snd z) 2 == imagePointUnder 25 0 1.
Proof.
  apply (zoomAtPoint_preserves_anchor 100 100 100 100 1 2 0 0 50 25);
    [reflexivity | reflexivity | vm_compute; split; reflexivity].
Defined.

(** When the clamp does move the translation the anchor can shift: zooming
    out from scale 2 to scale 1 around the corner [(0, 0)] of a 100x100
    viewport showing the lower right of a 100x100 image. *)
Example zoomAtPoint_clamped_anchor_shifts :
  let z := zoomAtPoint 100 100 100 100 2 1 (-100) (-100) 0 0 in
  ~ translation_eq z (-50, -50)
  /\ ~ imagePointUnder 0 (fst z) 1 == imagePointUnder 0 (-100) 2.
Proof.
  vm_compute. split; [intros [H _] | intro H]; discriminate H.
Qed.

(** The fit effect takes its resize branch exactly when the last viewport was
    measured, differs from the current one, and the natural size is the one
    last seen. *)
Lemma fitEffect_resize_scale vw vh nw nh st :
  0 < vw -> 0 < vh -> 0 < nw -> 0 < nh ->
  0 < Store.width (Store.lastViewportRef st) ->
  0 < Store.height (Store.lastViewportRef st) ->
  ~ (Store.width (Store.lastViewportRef st) == vw
     /\ Store.height (Store.lastViewportRef st) == vh) ->
  Store.width (Store.lastNaturalRef st) == nw ->
  Store.height (Store.lastNaturalRef st) == nh ->
  scale (Store.transform (Store.fitEffect vw vh nw nh true st))
  = let oldBaseScale :=
      getCoverScale (Store.width (Store.lastViewportRef st))
                    (Store.height (Store.lastViewportRef st)) nw nh in
    let newBaseScale := getCoverScale vw vh nw nh in
    Math.max newBaseScale
      (Math.min (maxScale (getScaleLimits vw vh nw nh))
         (newBaseScale * (scale (Store.transform st) / oldBaseScale))).
Proof.
  intros Hvw Hvh Hnw Hnh HoW HoH Hchg HnW HnH.
  unfold Store.fitEffect.
  pose proof Hvw as Gvw. pose proof Hvh as Gvh.
  pose proof Hnw as Gnw. pose proof Hnh as Gnh.
  apply leb_false_iff in Gvw, Gvh, Gnw, Gnh.
  rewrite Gvw, Gvh, Gnw, Gnh. cbn [negb orb].
  pose proof (getCoverScale_pos _ _ _ _ HoW HoH Hnw Hnh) as Hob.
  apply gtb_true_iff in HoW, HoH, Hob.
  apply neqb_false_iff in HnW, HnH.
  assert (Hne : Num.neqb (Store.width (Store.lastViewportRef st)) vw
                || Num.neqb (Store.height (Store.lastViewportRef st)) vh = true).
  { destruct (Num.neqb (Store.width (Store.lastViewportRef st)) vw) eqn:E1;
      [reflexivity|].
    destruct (Num.neqb (Store.height (Store.lastViewportRef st)) vh) eqn:E2;
      [reflexivity|].
    apply neqb_false_iff in E1, E2. exfalso. apply Hchg. now split. }
  cbv zeta. rewrite HoW, HoH, Hne, HnW, HnH. cbn [negb orb andb].
  rewrite Hob. reflexivity.
Qed.

(** C4 (resize preserves relative zoom).  On a viewport-only resize (the
    natural size is the one last seen, the viewport differs from the last
    measured one, which was non-zero), if the scale before is
    [k * baseScale_old], the scale stored by the resize branch is
    [clamp(k * baseScale_new, baseScale_new, maxScale_new)]. *)
Theorem resize_preserves_relative_zoom
  (vw vh nw nh k : Q) (st : Store.HookState)
  (Hvw : 0 < vw) (Hvh : 0 < vh) (Hnw : 0 < nw) (Hnh : 0 < nh)
  (HoldW : 0 < Store.width (Store.lastViewportRef st))
  (HoldH : 0 < Store.height (Store.lastViewportRef st))
  (Hresized : ~ (Store.width (Store.lastViewportRef st) == vw
                 /\ Store.height (Store.lastViewportRef st) == vh))
  (HsameW : Store.width (Store.lastNaturalRef st) == nw)
  (HsameH : Store.height (Store.lastNaturalRef st) == nh)
  (Hk : scale (Store.transform st)
        == k * getCoverScale (Store.width (Store.lastViewportRef st))
                             (Store.height (Store.lastViewportRef st)) nw nh) :
  let baseScale_new := getCoverScale vw vh nw nh in
  let maxScale_new := maxScale (getScaleLimits vw vh nw nh) in
  scale (Store.transform (Store.fitEffect vw vh nw nh true st))
  == clamp3 (k * baseScale_new) baseScale_new maxScale_new.
Proof.
  intros baseScale_new maxScale_new.
  rewrite fitEffect_resize_scale by assumption. cbv zeta.
  fold baseScale_new maxScale_new. unfold clamp3, Math.max, Math.min.
  pose proof (getCoverScale_pos _ _ _ _ HoldW HoldH Hnw Hnh) as Hob.
  assert (E : baseScale_new
              * (scale (Store.transform st)
                 / getCoverScale (Store.width (Store.lastViewportRef st))
                     (Store.height (Store.lastViewportRef st)) nw nh)
              == k * baseScale_new).
  { rewrite Hk. field. lra. }
  now rewrite E.
Qed.

(** A 450x350 viewport widened to 900x350 at twice the cover scale. *)
Lemma resize_preserves_relative_zoom_witness :
  let st := {| Store.transform :=
                 {| scale := 2 * getCoverScale 450 350 1920 1080;
                    translateX := -400; translateY := -200 |};
               Store.lastViewportRef := {| Store.width := 450; Store.height := 350 |};
               Store.lastNaturalRef := {| Store.width := 1920; Store.height := 1080 |} |} in
  scale (Store.transform (Store.fitEffect 900 350 1920 1080 true st))
  == clamp3 (2 * getCoverScale 900 350 1920 1080)
            (getCoverScale 900 350 1920 1080)
            (maxScale (getScaleLimits 900 350 1920 1080)).
Proof.
  intro st.
  apply (resize_preserves_relative_zoom 900 350 1920 1080 2 st);
    try reflexivity.
  intros [H _]. discriminate H.
Defined.

(** C5 (zoom bounds).  For strictly positive viewport and image dimensions,
    [getScaleLimits] returns [baseScale = max(viewportW/imgW, viewportH/imgH)],
    [minScale = baseScale*0.4] and [maxScale = baseScale*3.0], and
    [maxScale > minScale] strictly.  The limits are a function of the
    dimensions alone, so this holds for the limits recomputed after any
    resize. *)
Theorem scale_limits_of_positive_dims
  (vw vh iw ih : Q)
  (Hvw : 0 < vw) (Hvh : 0 < vh) (Hiw : 0 < iw) (Hih : 0 < ih) :
  let lim := getScaleLimits vw vh iw ih in
  baseScale lim == Math.max (vw / iw) (vh / ih)
  /\ minScale lim == baseScale lim * 0.4
  /\ maxScale lim == baseScale lim * 3.0
  /\ minScale lim < maxScale lim.
Proof.
  intro lim. subst lim.
  pose proof (getScaleLimits_ordered vw vh iw ih) as [_ Hlt].
  rewrite getScaleLimits_positive_dims in * by assumption. simpl in *.
  rewrite getCoverScale_positive_image in * by assumption.
  repeat split; try reflexivity. exact Hlt.
Qed.

(** The limits of the 450x350 viewport with a 1920x1080 image. *)
Lemma scale_limits_of_positive_dims_witness :
  let lim := getScaleLimits 450 350 1920 1080 in
  baseScale lim == Math.max (450 / 1920) (350 / 1080)
  /\ minScale lim == baseScale lim * 0.4
  /\ maxScale lim == baseScale lim * 3.0
  /\ minScale lim < maxScale lim.
Proof.
  apply (scale_limits_of_positive_dims 450 350 1920 1080); reflexivity.
Defined.

(** C6 as the specification words it does not hold for [getCoverScale]
    alone: with a viewport that is not measured yet (0x0) and a loaded
    1920x1080 image, a degenerate input, it returns the scale 0. *)
Lemma getCoverScale_unmeasured_viewport_is_zero :
  (0 <= 0 /\ getCoverScale 0 0 1920 1080 == 0)
  /\ ~ (forall vw vh iw ih,
          vw <= 0 \/ vh <= 0 \/ iw <= 0 \/ ih <= 0 ->
          ~ getCoverScale vw vh iw ih == 0).
Proof.
  split.
  - split; [discriminate | reflexivity].
  - intro H. apply (H 0 0 1920 1080).
    + left. discriminate.
    + reflexivity.
Qed.

(** C6 (degenerate dimensions), amended.  When any viewport or image
    dimension is [<= 0], [getScaleLimits] returns the constants
    [minScale = 0.001], [maxScale = 8], [baseScale = 1], all strictly
    positive and computed without a division; [getCoverScale] returns 1 when
    an image dimension is [<= 0]; the fit effect of the store leaves its
    state as it is; and the scale stored by [applyScale] is at least 0.001.
    So neither [getScaleLimits] nor the store produces a scale of 0 from
    such input. *)
Theorem degenerate_dimensions_are_safe
  (vw vh iw ih : Q)
  (Hdegenerate : vw <= 0 \/ vh <= 0 \/ iw <= 0 \/ ih <= 0) :
  let lim := getScaleLimits vw vh iw ih in
  lim = {| minScale := 0.001; maxScale := 8; baseScale := 1 |}
  /\ 0 < minScale lim /\ 0 < maxScale lim /\ 0 < baseScale lim
  /\ (iw <= 0 \/ ih <= 0 -> getCoverScale vw vh iw ih = 1)
  /\ (forall isReady st, Store.fitEffect vw vh iw ih isReady st = st)
  /\ (forall newScale ax ay prev,
        0.001 <= scale (Store.applyScale vw vh iw ih newScale ax ay prev)).
Proof.
  intro lim. subst lim.
  rewrite (getScaleLimits_degenerate _ _ _ _ Hdegenerate).
  cbn [minScale maxScale baseScale].
  split; [reflexivity|]. do 3 (split; [reflexivity|]).
  split; [|split].
  - intro Himg. unfold getCoverScale.
    assert (E : Num.leb iw 0 || Num.leb ih 0 = true).
    { rewrite orb_true_iff, !leb_true_iff. exact Himg. }
    now rewrite E.
  - intros isReady st. unfold Store.fitEffect.
    assert (E : negb isReady || Num.leb vw 0 || Num.leb vh 0
                || Num.leb iw 0 || Num.leb ih 0 = true).
    { rewrite !orb_true_iff, !leb_true_iff. tauto. }
    now rewrite E.
  - intros newScale ax ay prev. rewrite applyScale_scale. cbv zeta.
    rewrite (getScaleLimits_degenerate _ _ _ _ Hdegenerate).
    cbn [minScale maxScale]. apply clamp3_lower.
Qed.

(** A measured viewport whose image is not loaded yet (natural size 0x0). *)
Lemma degenerate_dimensions_are_safe_witness :
  getScaleLimits 450 350 0 0
  = {| minScale := 0.001; maxScale := 8; baseScale := 1 |}
  /\ getCoverScale 450 350 0 0 = 1.
Proof.
  assert (H : 450 <= 0 \/ 350 <= 0 \/ 0 <= 0 \/ 0 <= 0)
    by (right; right; left; discriminate).
  split.
  - apply (degenerate_dimensions_are_safe 450 350 0 0 H).
  - apply (degenerate_dimensions_are_safe 450 350 0 0 H).
    left. discriminate.
Defined.

(** ** Coordinate bridge *)

(** One axis of the round trip: a segment [p, p + len] of the viewport that
    lies within the rendered image [t, t + n*s] is mapped to image space
    without being clamped, and mapped back to itself. *)
Lemma bridge_axis_round_trip p len t s n :
  0 < s -> 0 <= len -> t <= p -> p + len <= t + n * s ->
  let i := (p - t) / s in
  let l := len / s in
  let p1 := Math.max 0 (Math.min i n) in
  let p2 := Math.max p1 (Math.min (i + l) n) in
  p1 * s + t == p /\ Math.max 0 (p2 - p1) * s == len.
Proof.
  intros Hs Hlen Hlo Hhi i l p1 p2.
  assert (Hi0 : 0 <= i).
  { unfold i. apply Qle_shift_div_l; [exact Hs | lra]. }
  assert (Hl0 : 0 <= l).
  { unfold l. apply Qle_shift_div_l; [exact Hs | lra]. }
  assert (Hil : i + l <= n).
  { assert (E : i + l == (p - t + len) / s) by (unfold i, l; field; lra).
    rewrite E. apply Qle_shift_div_r; [exact Hs | lra]. }
  assert (E1 : p1 == i) by (unfold p1; minmax; lra).
  assert (E2 : Math.max 0 (p2 - p1) == l) by (unfold p2, p1; minmax; lra).
  split; [rewrite E1 | rewrite E2]; unfold i, l; field; lra.
Qed.

(** C7 (round-trip coordinate conversion).  For a positive scale and a
    viewport-space rectangle [r] (non-negative width and height) lying fully
    within the rendered image [[tx, tx + naturalW*scale] x
    [ty, ty + naturalH*scale]], converting [r] to image space with
    [viewportCropToNaturalPx] and back with [imageCropToViewportPx] returns a
    pixel crop with the numbers of [r]. *)
Theorem crop_round_trip
  (r : ImageCropControl.Crop) (s tx ty naturalW naturalH viewportW viewportH : Q)
  (Hs : 0 < s)
  (Hw : 0 <= ImageCropControl.width r) (Hh : 0 <= ImageCropControl.height r)
  (Hleft : tx <= ImageCropControl.x r)
  (Hright : ImageCropControl.x r + ImageCropControl.width r <= tx + naturalW * s)
  (Htop : ty <= ImageCropControl.y r)
  (Hbottom : ImageCropControl.y r + ImageCropControl.height r <= ty + naturalH * s) :
  let n := ImageCropControl.viewportCropToNaturalPx r s tx ty naturalW naturalH in
  let r' := ImageCropControl.imageCropToViewportPx
              n naturalW naturalH s tx ty viewportW viewportH in
  ImageCropControl.unit r' = ImageCropControl.Px
  /\ ImageCropControl.x r' == ImageCropControl.x r
  /\ ImageCropControl.y r' == ImageCropControl.y r
  /\ ImageCropControl.width r' == ImageCropControl.width r
  /\ ImageCropControl.height r' == ImageCropControl.height r.
Proof.
  intros n r'. subst r' n.
  destruct (bridge_axis_round_trip _ _ _ _ _ Hs Hw Hleft Hright) as [Ex Ew].
  destruct (bridge_axis_round_trip _ _ _ _ _ Hs Hh Htop Hbottom) as [Ey Eh].
  unfold ImageCropControl.imageCropToViewportPx,
         ImageCropControl.viewportCropToNaturalPx.
  cbn [ImageCropControl.unit ImageCropControl.x ImageCropControl.y
       ImageCropControl.width ImageCropControl.height].
  cbv zeta in Ex, Ew, Ey, Eh.
  split; [reflexivity|]. split; [exact Ex|]. split; [exact Ey|].
  split; [exact Ew | exact Eh].
Qed.

(** A 100x80 rectangle inside a 1920x1080 image shown at half scale. *)
Lemma crop_round_trip_witness :
  let r := {| ImageCropControl.unit := ImageCropControl.Px;
              ImageCropControl.x := 50; ImageCropControl.y := 60;
              ImageCropControl.width := 100; ImageCropControl.height := 80 |} in
  let n := ImageCropControl.viewportCropToNaturalPx r (1 # 2) (-40) (-20) 1920 1080 in
  let r' := ImageCropControl.imageCropToViewportPx
              n 1920 1080 (1 # 2) (-40) (-20) 450 350 in
  ImageCropControl.unit r' = ImageCropControl.Px
  /\ ImageCropControl.x r' == ImageCropControl.x r
  /\ ImageCropControl.y r' == ImageCropControl.y r
  /\ ImageCropControl.width r' == ImageCropControl.width r
  /\ ImageCropControl.height r' == ImageCropControl.height r.
Proof.
  intro r.
  apply (crop_round_trip r (1 # 2) (-40) (-20) 1920 1080 450 350);
    vm_compute; first [reflexivity | discriminate].
Defined.

(** ** Crop initialisation and zoom-multiplier output *)

(** C8 as the specification words it does not hold: the first crop can be
    the whole viewport.  In a 200x200 viewport showing a 200x200 image at its
    cover fit, with no crop, no host default and no completed crop, the
    crop-init effect creates the rectangle [(0, 0, 200, 200)]. *)
Lemma first_crop_can_fill_viewport :
  let vw := 200 in
  let vh := 200 in
  let t := {| scale := 1; translateX := 0; translateY := 0 |} in
  let st := {| ImageCropControl.crop := None;
               ImageCropControl.viewportCropInitializedRef := false;
               ImageCropControl.cropIsViewportSpaceRef := false |} in
  exists c,
    ImageCropControl.crop
      (ImageCropControl.cropInitEffect true true vw vh None None 200 200 t st)
    = Some c
    /\ ImageCropControl.x c == 0 /\ ImageCropControl.y c == 0
    /\ ImageCropControl.width c == vw /\ ImageCropControl.height c == vh.
Proof.
  intros vw vh t st. eexists. split; [reflexivity|].
  vm_compute. intuition congruence.
Qed.

(** C8 (first crop rectangle), amended.  When crop editing is entered in
    pan/zoom mode with a measured viewport, no crop rectangle yet, no usable
    host default crop and no usable completed crop, the crop-init effect
    creates a pixel rectangle of [min(200, viewportW)] by
    [min(200, viewportH)] viewport pixels, centered in the viewport and
    contained in it: a fixed 200x200 box, cut down to the viewport where the
    viewport is smaller. *)
Theorem first_crop_is_centered_200_box
  (vw vh naturalW naturalH : Q) (t : ViewTransform)
  (defaultCrop completedCrop : option ImageCropControl.Crop)
  (st : ImageCropControl.CropState)
  (Hvw : 0 < vw) (Hvh : 0 < vh)
  (Hnone : ImageCropControl.crop st = None)
  (Hdefault : ImageCropControl.usable defaultCrop = None)
  (Hcompleted : ImageCropControl.usable completedCrop = None) :
  exists c,
    ImageCropControl.crop
      (ImageCropControl.cropInitEffect true true vw vh defaultCrop completedCrop
                                       naturalW naturalH t st) = Some c
    /\ c = ImageCropControl.defaultViewportCrop200 vw vh
    /\ ImageCropControl.unit c = ImageCropControl.Px
    /\ ImageCropControl.width c == Math.min 200 vw
    /\ ImageCropControl.height c == Math.min 200 vh
    /\ ImageCropControl.x c + ImageCropControl.width c / 2 == vw / 2
    /\ ImageCropControl.y c + ImageCropControl.height c / 2 == vh / 2
    /\ 0 <= ImageCropControl.x c
    /\ ImageCropControl.x c + ImageCropControl.width c <= vw
    /\ 0 <= ImageCropControl.y c
    /\ ImageCropControl.y c + ImageCropControl.height c <= vh.
Proof.
  exists (ImageCropControl.defaultViewportCrop200 vw vh).
  split.
  - unfold ImageCropControl.cropInitEffect.
    apply leb_false_iff in Hvw, Hvh. rewrite Hvw, Hvh, Hnone. cbn [negb orb].
    now rewrite Hdefault, Hcompleted.
  - unfold ImageCropControl.defaultViewportCrop200.
    cbn [ImageCropControl.unit ImageCropControl.x ImageCropControl.y
         ImageCropControl.width ImageCropControl.height].
    split; [reflexivity|]. split; [reflexivity|].
    split; [reflexivity|]. split; [reflexivity|].
    minmax. halves. repeat split; lra.
Qed.

(** The first crop in the 450x350 viewport. *)
Lemma first_crop_is_centered_200_box_witness :
  let t := {| scale := 35 # 108; translateX := - (775 # 9); translateY := 0 |} in
  let st := {| ImageCropControl.crop := None;
               ImageCropControl.viewportCropInitializedRef := false;
               ImageCropControl.cropIsViewportSpaceRef := false |} in
  exists c,
    ImageCropControl.crop
      (ImageCropControl.cropInitEffect true true 450 350 None None
                                       1920 1080 t st) = Some c
    /\ c = ImageCropControl.defaultViewportCrop200 450 350.
Proof.
  intros t st.
  destruct (first_crop_is_centered_200_box 450 350 1920 1080 t None None st)
    as [c [Hc [Hd _]]]; try reflexivity.
  exists c. split; assumption.
Defined.

(** C9 (zoom-multiplier output).  While the transform is ready and the base
    scale is positive, the value the sync effect hands to
    [onZoomMultiplierChange] is [currentScale / baseScale] clamped to
    [[0.4, 3.0]]; it lies in that interval, and it is a function of the
    dimensions and of the current scale only, which are the dependencies the
    effect re-runs on. *)
Theorem zoom_multiplier_published
  (vw vh naturalW naturalH : Q) (t : ViewTransform)
  (Hready : ImageCropControl.isTransformReady naturalW naturalH vw vh = true)
  (Hbase : 0 < baseScale (getScaleLimits vw vh naturalW naturalH)) :
  let baseScale := baseScale (getScaleLimits vw vh naturalW naturalH) in
  let published := clamp3 (scale t / baseScale) 0.4 3.0 in
  ImageCropControl.zoomMultiplierSync true vw vh naturalW naturalH t
  = Some published
  /\ 0.4 <= published /\ published <= 3.0
  /\ baseScale == Math.max (vw / naturalW) (vh / naturalH).
Proof.
  intros base published.
  unfold ImageCropControl.zoomMultiplierSync. rewrite Hready. cbn [negb orb].
  fold base. apply leb_false_iff in Hbase. fold base in Hbase. rewrite Hbase.
  split; [reflexivity|].
  split; [apply clamp3_bounds; discriminate|].
  split; [apply clamp3_bounds; discriminate|].
  unfold ImageCropControl.isTransformReady in Hready.
  rewrite !andb_true_iff, !gtb_true_iff in Hready.
  destruct Hready as [[[Hnw Hnh] Hw] Hh].
  unfold base. rewrite getScaleLimits_positive_dims by assumption.
  cbn [baseScale]. now rewrite getCoverScale_positive_image by assumption.
Qed.

(** The multiplier published for scale 2 in the 450x350 viewport with a
    1920x1080 image. *)
Lemma zoom_multiplier_published_witness :
  ImageCropControl.zoomMultiplierSync true 450 350 1920 1080
    {| scale := 2; translateX := 0; translateY := 0 |}
  = Some (clamp3 (2 / baseScale (getScaleLimits 450 350 1920 1080)) 0.4 3.0).
Proof.
  apply (zoom_multiplier_published 450 350 1920 1080
           {| scale := 2; translateX := 0; translateY := 0 |});
    reflexivity.
Defined.

(** C10 (idempotent clamp).  For all arguments, clamping the output of
    [clampTranslation] again with the same viewport, image and scale returns
    that output: a clamped translation is a fixed point.  Hence the store's
    [clamp], and [setTransformDirect] with it, does not move a transform that
    a store operation has already clamped. *)
Theorem clampTranslation_idempotent
  (vw vh iw ih s tx ty : Q) :
  let c := clampTranslation vw vh iw ih s tx ty in
  let stored := Store.clamp vw vh iw ih
                  {| scale := s; translateX := tx; translateY := ty |} in
  translation_eq (clampTranslation vw vh iw ih s (fst c) (snd c)) c
  /\ transform_eq (Store.clamp vw vh iw ih stored) stored
  /\ transform_eq (Store.setTransformDirect vw vh iw ih stored) stored.
Proof.
  intros c stored. split; [apply clampTranslation_idem|].
  split; apply clamp_idem.
Qed.

(** * Further properties of the code *)

(** ** Fit, resize and zoom of the store *)

(** The cover scale makes the scaled image at least as large as the viewport
    on both axes. *)
Lemma getCoverScale_fills vw vh iw ih :
  0 < vw -> 0 < vh -> 0 < iw -> 0 < ih ->
  vw <= iw * getCoverScale vw vh iw ih /\ vh <= ih * getCoverScale vw vh iw ih.
Proof.
  intros Hvw Hvh Hiw Hih. rewrite getCoverScale_positive_image by assumption.
  assert (Ew : iw * (vw / iw) == vw) by (field; lra).
  assert (Eh : ih * (vh / ih) == vh) by (field; lra).
  unfold Math.max.
  pose proof (Q.le_max_l (vw / iw) (vh / ih)) as Hl.
  pose proof (Q.le_max_r (vw / iw) (vh / ih)) as Hr.
  split.
  - rewrite <- Ew at 1. apply Qmult_le_l; assumption.
  - rewrite <- Eh at 1. apply Qmult_le_l; assumption.
Qed.

(** A larger scale fills the viewport as well. *)
Lemma scale_above_cover_fills vw vh iw ih s :
  0 < vw -> 0 < vh -> 0 < iw -> 0 < ih ->
  getCoverScale vw vh iw ih <= s ->
  vw <= iw * s /\ vh <= ih * s.
Proof.
  intros Hvw Hvh Hiw Hih Hs.
  destruct (getCoverScale_fills vw vh iw ih Hvw Hvh Hiw Hih) as [Hw Hh].
  split.
  - apply Qle_trans with (1 := Hw). apply Qmult_le_l; assumption.
  - apply Qle_trans with (1 := Hh). apply Qmult_le_l; assumption.
Qed.

(** The positive-dimension guard of the fit effect. *)
Lemma fitEffect_guard_false vw vh nw nh :
  0 < vw -> 0 < vh -> 0 < nw -> 0 < nh ->
  negb true || Num.leb vw 0 || Num.leb vh 0 || Num.leb nw 0 || Num.leb nh 0
  = false.
Proof.
  intros Hvw Hvh Hnw Hnh.
  apply leb_false_iff in Hvw, Hvh, Hnw, Hnh. now rewrite Hvw, Hvh, Hnw, Hnh.
Qed.

Lemma neqb_or_true a b c d :
  ~ (a == b /\ c == d) -> Num.neqb a b || Num.neqb c d = true.
Proof.
  intro H. destruct (Num.neqb a b) eqn:E1; [reflexivity|].
  destruct (Num.neqb c d) eqn:E2; [reflexivity|].
  apply neqb_false_iff in E1, E2. exfalso. apply H. now split.
Qed.

(** X1 (a new image is fitted to cover).  With positive dimensions, when the
    natural size differs from the one last seen (a new image, or the first
    measurement), the fit effect stores the cover scale with the centering
    translation.  The scaled image is then at least as large as the viewport
    on both axes, the transform satisfies the cover condition, and clamping
    it changes nothing. *)
Theorem new_image_is_fitted_to_cover
  (vw vh nw nh : Q) (st : Store.HookState)
  (Hvw : 0 < vw) (Hvh : 0 < vh) (Hnw : 0 < nw) (Hnh : 0 < nh)
  (Hnew : ~ (Store.width (Store.lastNaturalRef st) == nw
             /\ Store.height (Store.lastNaturalRef st) == nh)) :
  let t := Store.transform (Store.fitEffect vw vh nw nh true st) in
  let c := getCenterTranslation vw vh nw nh (getCoverScale vw vh nw nh) in
  t = {| scale := getCoverScale vw vh nw nh;
         translateX := fst c; translateY := snd c |}
  /\ vw <= nw * scale t /\ vh <= nh * scale t
  /\ covers vw vh nw nh t
  /\ transform_eq (Store.clamp vw vh nw nh t) t.
Proof.
  intros t c.
  assert (Et : t = {| scale := getCoverScale vw vh nw nh;
                      translateX := fst c; translateY := snd c |}).
  { unfold t, Store.fitEffect.
    rewrite (fitEffect_guard_false vw vh nw nh) by assumption.
    cbv zeta. rewrite (neqb_or_true _ _ _ _ Hnew).
    rewrite andb_false_r. reflexivity. }
  destruct (getCoverScale_fills vw vh nw nh Hvw Hvh Hnw Hnh) as [Hw Hh].
  assert (Hc : covers vw vh nw nh t).
  { rewrite Et. unfold covers, covers_axis, c, getCenterTranslation. simpl.
    halves. repeat split; intros; lra. }
  split; [exact Et|]. rewrite Et at 1 2. simpl.
  split; [exact Hw|]. split; [exact Hh|]. split; [exact Hc|].
  destruct Hc as [Hx Hy].
  split; [reflexivity|]. apply clampTranslation_fixed; assumption.
Qed.

(** The first measurement of a 1920x1080 image in a 450x350 viewport. *)
Lemma new_image_is_fitted_to_cover_witness :
  covers 450 350 1920 1080
    (Store.transform (Store.fitEffect 450 350 1920 1080 true Store.initialState)).
Proof.
  apply (new_image_is_fitted_to_cover 450 350 1920 1080 Store.initialState);
    try reflexivity.
  intros [H _]. discriminate H.
Defined.

(** The resize branch stores a clamped transform at the rescaled zoom. *)
Lemma fitEffect_resize_transform vw vh nw nh st :
  0 < vw -> 0 < vh -> 0 < nw -> 0 < nh ->
  0 < Store.width (Store.lastViewportRef st) ->
  0 < Store.height (Store.lastViewportRef st) ->
  ~ (Store.width (Store.lastViewportRef st) == vw
     /\ Store.height (Store.lastViewportRef st) == vh) ->
  Store.width (Store.lastNaturalRef st) == nw ->
  Store.height (Store.lastNaturalRef st) == nh ->
  exists newScale tx ty,
    Store.transform (Store.fitEffect vw vh nw nh true st)
    = Store.clamp vw vh nw nh
        {| scale := newScale; translateX := tx; translateY := ty |}
    /\ getCoverScale vw vh nw nh <= newScale
    /\ newScale <= maxScale (getScaleLimits vw vh nw nh).
Proof.
  intros Hvw Hvh Hnw Hnh HoW HoH Hchg HnW HnH.
  unfold Store.fitEffect.
  rewrite (fitEffect_guard_false vw vh nw nh) by assumption.
  apply gtb_true_iff in HoW, HoH. apply neqb_false_iff in HnW, HnH.
  cbv zeta. rewrite HoW, HoH, (neqb_or_true _ _ _ _ Hchg), HnW, HnH.
  cbn [negb orb andb Store.transform].
  do 3 eexists. split; [unfold Store.clamp; cbn [scale translateX translateY];
                        reflexivity|].
  pose proof (getScaleLimits_ordered vw vh nw nh) as [Hmin Hlt].
  rewrite getScaleLimits_positive_dims in * by assumption. simpl in *.
  unfold MIN_ZOOM_MULTIPLIER, MAX_ZOOM_MULTIPLIER in *.
  minmax. lra.
Qed.

(** X2 (a resize keeps the viewport covered).  On a viewport-only resize
    with positive dimensions, the stored scale lies between the new cover
    scale and the new maximum, the scaled image is at least as large as the
    new viewport on both axes, and the stored translation leaves no gap:
    [viewport - img*scale <= translate <= 0] on both axes. *)
Theorem resize_keeps_viewport_covered
  (vw vh nw nh : Q) (st : Store.HookState)
  (Hvw : 0 < vw) (Hvh : 0 < vh) (Hnw : 0 < nw) (Hnh : 0 < nh)
  (HoldW : 0 < Store.width (Store.lastViewportRef st))
  (HoldH : 0 < Store.height (Store.lastViewportRef st))
  (Hresized : ~ (Store.width (Store.lastViewportRef st) == vw
                 /\ Store.height (Store.lastViewportRef st) == vh))
  (HsameW : Store.width (Store.lastNaturalRef st) == nw)
  (HsameH : Store.height (Store.lastNaturalRef st) == nh) :
  let t := Store.transform (Store.fitEffect vw vh nw nh true st) in
  getCoverScale vw vh nw nh <= scale t
  /\ scale t <= maxScale (getScaleLimits vw vh nw nh)
  /\ vw <= nw * scale t /\ vh <= nh * scale t
  /\ vw - nw * scale t <= translateX t /\ translateX t <= 0
  /\ vh - nh * scale t <= translateY t /\ translateY t <= 0.
Proof.
  intro t.
  destruct (fitEffect_resize_transform vw vh nw nh st)
    as [s [tx [ty [Et [Hlo Hhi]]]]]; try assumption.
  fold t in Et.
  assert (Es : scale t = s) by (rewrite Et; reflexivity).
  destruct (scale_above_cover_fills vw vh nw nh s) as [Hw Hh]; try assumption.
  pose proof (clamp_covers vw vh nw nh
                {| scale := s; translateX := tx; translateY := ty |}) as Hc.
  rewrite <- Et in Hc. destruct Hc as [[Hx _] [Hy _]].
  rewrite Es in *. specialize (Hx Hw). specialize (Hy Hh). tauto.
Qed.

(** A 450x350 viewport widened to 900x350 while zoomed in and panned. *)
Lemma resize_keeps_viewport_covered_witness :
  let st := {| Store.transform :=
                 {| scale := 1; translateX := -400; translateY := -200 |};
               Store.lastViewportRef := {| Store.width := 450; Store.height := 350 |};
               Store.lastNaturalRef := {| Store.width := 1920; Store.height := 1080 |} |} in
  let t := Store.transform (Store.fitEffect 900 350 1920 1080 true st) in
  900 - 1920 * scale t <= translateX t /\ translateX t <= 0.
Proof.
  intros st t.
  assert (H : ~ (Store.width (Store.lastViewportRef st) == 900
                 /\ Store.height (Store.lastViewportRef st) == 350))
    by (intros [H _]; discriminate H).
  pose proof (resize_keeps_viewport_covered 900 350 1920 1080 st
                eq_refl eq_refl eq_refl eq_refl eq_refl eq_refl H
                (Qeq_refl _) (Qeq_refl _)) as P.
  split; apply P.
Defined.

Lemma neqb_refl a : Num.neqb a a = false.
Proof. apply neqb_false_iff. reflexivity. Qed.

Lemma eqb_zero_of_pos a : 0 < a -> Num.eqb a 0 = false.
Proof.
  intro H. unfold Num.eqb. destruct (Qeq_bool a 0) eqn:E; [|reflexivity].
  apply Qeq_bool_iff in E. lra.
Qed.

(** X3 (the fit effect is idempotent).  Running the fit effect a second time
    with the same arguments changes neither the transform nor the remembered
    sizes, whatever the state and the arguments: a repeated resize
    notification with identical dimensions does not touch the user's zoom
    and pan. *)
Theorem fitEffect_idempotent
  (vw vh nw nh : Q) (isReady : bool) (st : Store.HookState) :
  Store.fitEffect vw vh nw nh isReady (Store.fitEffect vw vh nw nh isReady st)
  = Store.fitEffect vw vh nw nh isReady st.
Proof.
  unfold Store.fitEffect at 2.
  destruct (negb isReady || Num.leb vw 0 || Num.leb vh 0
            || Num.leb nw 0 || Num.leb nh 0) eqn:G; [reflexivity|].
  cbv zeta.
  match goal with
  | |- Store.fitEffect _ _ _ _ _ ?r = _ => set (st' := r)
  end.
  unfold Store.fitEffect. rewrite G. cbv zeta.
  subst st'. cbn [Store.lastViewportRef Store.lastNaturalRef
                  Store.width Store.height Store.transform].
  rewrite !orb_false_iff in G. destruct G as [[[[_ _] _] Gnw] _].
  apply leb_false_iff in Gnw.
  rewrite !neqb_refl, (eqb_zero_of_pos nw Gnw).
  now rewrite !andb_false_r.
Qed.

(** [Math.max] and [Math.min] return one of their arguments, the very
    term. *)
Lemma Qmax_cases a b :
  (Qmax a b = b /\ a < b) \/ (Qmax a b = a /\ b <= a).
Proof.
  unfold Qmax, GenericMinMax.gmax. destruct (a ?= b) eqn:E.
  - right. split; [reflexivity|]. apply Qeq_alt in E. lra.
  - left. split; [reflexivity|]. now apply Qlt_alt.
  - right. split; [reflexivity|]. apply Qgt_alt in E. lra.
Qed.

Lemma Qmin_cases a b :
  (Qmin a b = a /\ a <= b) \/ (Qmin a b = b /\ b < a).
Proof.
  unfold Qmin, GenericMinMax.gmin. destruct (a ?= b) eqn:E.
  - left. split; [reflexivity|]. apply Qeq_alt in E. lra.
  - left. split; [reflexivity|]. apply Qlt_alt in E. lra.
  - right. split; [reflexivity|]. now apply Qgt_alt.
Qed.

(** Clamping twice into the same non-empty range returns the very value the
    first clamp returned. *)
Lemma clamp3_twice v lo hi :
  lo < hi -> clamp3 (clamp3 v lo hi) lo hi = clamp3 v lo hi.
Proof.
  intro H. unfold clamp3, Math.max, Math.min.
  assert (Qmax_same : forall a, Qmax a a = a).
  { intro a. destruct (Qmax_cases a a) as [[E _]|[E _]]; exact E. }
  destruct (Qmin_cases hi v) as [[E1 H1]|[E1 H1]]; rewrite E1.
  - destruct (Qmax_cases lo hi) as [[E2 H2]|[E2 H2]]; [|exfalso; lra].
    rewrite E2.
    destruct (Qmin_cases hi hi) as [[E3 _]|[E3 _]]; rewrite E3; exact E2.
  - destruct (Qmax_cases lo v) as [[E2 H2]|[E2 H2]]; rewrite E2.
    + rewrite E1. exact E2.
    + destruct (Qmin_cases hi lo) as [[E3 H3]|[E3 H3]]; [exfalso; lra|].
      rewrite E3. apply Qmax_same.
Qed.

(** X4 (zoom limits of the store).  Whatever the dimensions, the requested
    scale and the anchor, [applyScale] and [zoomAt] store a scale within
    [[minScale, maxScale]] of the current scale limits, and so a strictly
    positive one. *)
Theorem stored_scale_is_within_limits
  (vw vh nw nh newScale px py factor : Q) (ax ay : option Q)
  (rendered prev : ViewTransform) :
  let lim := getScaleLimits vw vh nw nh in
  let a := Store.applyScale vw vh nw nh newScale ax ay prev in
  let z := Store.zoomAt vw vh nw nh px py factor rendered prev in
  minScale lim <= scale a /\ scale a <= maxScale lim /\ 0 < scale a
  /\ minScale lim <= scale z /\ scale z <= maxScale lim /\ 0 < scale z.
Proof.
  intros lim a z.
  destruct (getScaleLimits_ordered vw vh nw nh) as [Hpos Hlt]. fold lim in Hpos, Hlt.
  assert (Ha : scale a = clamp3 newScale (minScale lim) (maxScale lim))
    by reflexivity.
  assert (Hz : scale z = clamp3 (clamp3 (scale rendered * factor)
                                        (minScale lim) (maxScale lim))
                                (minScale lim) (maxScale lim))
    by reflexivity.
  rewrite Ha, Hz.
  pose proof (clamp3_bounds newScale (minScale lim) (maxScale lim)).
  pose proof (clamp3_bounds (clamp3 (scale rendered * factor)
                                    (minScale lim) (maxScale lim))
                            (minScale lim) (maxScale lim)).
  lra.
Qed.

(** X5 ([zoomAt] is [applyScale] at the multiplied scale).  The scale that
    [zoomAt] clamps before calling [applyScale] is clamped again there to the
    same limits, so [zoomAt(px, py, factor)] stores exactly the transform
    that [applyScale(renderedScale * factor, px, py)] stores. *)
Theorem zoomAt_is_applyScale
  (vw vh nw nh px py factor : Q) (rendered prev : ViewTransform) :
  Store.zoomAt vw vh nw nh px py factor rendered prev
  = Store.applyScale vw vh nw nh (scale rendered * factor)
                     (Some px) (Some py) prev.
Proof.
  destruct (getScaleLimits_ordered vw vh nw nh) as [_ Hlt].
  pose proof (clamp3_twice (scale rendered * factor) _ _ Hlt) as E.
  unfold clamp3 in E. unfold Store.zoomAt, Store.applyScale. cbv zeta.
  now rewrite E.
Qed.

(** The scale that [zoomAt] stores is its target scale clamped once. *)
Lemma zoomAt_scale vw vh nw nh px py factor rendered prev :
  let lim := getScaleLimits vw vh nw nh in
  scale (Store.zoomAt vw vh nw nh px py factor rendered prev)
  = clamp3 (scale rendered * factor) (minScale lim) (maxScale lim).
Proof.
  intro lim.
  destruct (getScaleLimits_ordered vw vh nw nh) as [_ Hlt]. fold lim in Hlt.
  exact (clamp3_twice (scale rendered * factor) _ _ Hlt).
Qed.

(** X6 (the zoom saturates at the limits).  A [zoomAt] whose target scale
    [renderedScale * factor] is at or below [minScale] stores exactly
    [minScale]; at or above [maxScale] it stores exactly [maxScale]; in
    between it stores the target scale itself. *)
Theorem zoomAt_saturates
  (vw vh nw nh px py factor : Q) (rendered prev : ViewTransform) :
  let lim := getScaleLimits vw vh nw nh in
  let target := scale rendered * factor in
  let z := Store.zoomAt vw vh nw nh px py factor rendered prev in
  (target <= minScale lim -> scale z == minScale lim)
  /\ (maxScale lim <= target -> scale z == maxScale lim)
  /\ (minScale lim <= target -> target <= maxScale lim -> scale z == target).
Proof.
  intros lim target z. unfold z. rewrite zoomAt_scale.
  cbv zeta. fold lim target.
  destruct (getScaleLimits_ordered vw vh nw nh) as [_ Hlt]. fold lim in Hlt.
  repeat split; intros; minmax; lra.
Qed.

(** Zooming out of a 450x350 view of a 1920x1080 image, far and a little. *)
Lemma zoomAt_saturates_witness :
  let lim := getScaleLimits 450 350 1920 1080 in
  let t := {| scale := 35 # 108; translateX := - (775 # 9); translateY := 0 |} in
  scale (Store.zoomAt 450 350 1920 1080 225 175 (1 # 10) t t) == minScale lim
  /\ scale (Store.zoomAt 450 350 1920 1080 225 175 10 t t) == maxScale lim
  /\ scale (Store.zoomAt 450 350 1920 1080 225 175 2 t t) == (35 # 108) * 2.
Proof.
  intros lim t.
  pose proof (zoomAt_saturates 450 350 1920 1080 225 175 (1 # 10) t t)
    as [Hlo _].
  pose proof (zoomAt_saturates 450 350 1920 1080 225 175 10 t t)
    as [_ [Hhi _]].
  pose proof (zoomAt_saturates 450 350 1920 1080 225 175 2 t t)
    as [_ [_ Hmid]].
  split; [apply Hlo; vm_compute; discriminate|].
  split; [apply Hhi; vm_compute; discriminate|].
  apply Hmid; vm_compute; discriminate.
Defined.

(** A translation that satisfies the cover condition at scale [s] is what
    [clampTranslation] returns for any equal scale and translation. *)
Lemma clampTranslation_fixed_eq vw vh iw ih s s' tx tx' ty ty' :
  s' == s -> tx' == tx -> ty' == ty ->
  covers_axis vw iw s tx -> covers_axis vh ih s ty ->
  translation_eq (clampTranslation vw vh iw ih s' tx' ty') (tx, ty).
Proof.
  intros Es Ex Ey [Hx1 Hx2] [Hy1 Hy2].
  assert (Ew : iw * s' == iw * s) by now rewrite Es.
  assert (Eh : ih * s' == ih * s) by now rewrite Es.
  unfold clampTranslation, translation_eq.
  case_ltb (iw * s') vw; case_ltb (ih * s') vh; simpl; minmax; halves;
    repeat match goal with
    | H : ?a -> _ |- _ =>
        let L := fresh in assert (L : a) by lra; specialize (H L)
    end; lra.
Qed.

(** X7 (re-applying the current scale moves nothing).  For a stored
    transform with a positive scale within the scale limits that satisfies
    the cover condition, [applyScale] called with that same scale, around
    any anchor or none, stores the same scale and translation again. *)
Theorem applyScale_at_current_scale_is_identity
  (vw vh nw nh : Q) (ax ay : option Q) (t : ViewTransform)
  (Hpos : 0 < scale t)
  (Hmin : minScale (getScaleLimits vw vh nw nh) <= scale t)
  (Hmax : scale t <= maxScale (getScaleLimits vw vh nw nh))
  (Hcovers : covers vw vh nw nh t) :
  transform_eq (Store.applyScale vw vh nw nh (scale t) ax ay t) t.
Proof.
  destruct Hcovers as [Hx Hy].
  set (lim := getScaleLimits vw vh nw nh) in *.
  assert (Es : Math.max (minScale lim) (Math.min (maxScale lim) (scale t))
               == scale t) by (minmax; lra).
  unfold transform_eq, Store.applyScale, Store.clamp, zoomAtPoint.
  cbv zeta. cbn [scale translateX translateY]. fold lim.
  set (cs := Math.max (minScale lim) (Math.min (maxScale lim) (scale t))) in *.
  set (px := match ax with Some p => p | None => vw / 2 end).
  set (py := match ay with Some p => p | None => vh / 2 end).
  assert (Ex : px - (px - translateX t) * (cs / scale t) == translateX t).
  { rewrite Es. field. lra. }
  assert (Ey : py - (py - translateY t) * (cs / scale t) == translateY t).
  { rewrite Es. field. lra. }
  destruct (clampTranslation_fixed_eq vw vh nw nh (scale t) cs
              (translateX t) _ (translateY t) _ Es Ex Ey Hx Hy) as [E1 E2].
  simpl in E1, E2.
  split; [exact Es|].
  apply (clampTranslation_fixed_eq vw vh nw nh (scale t) cs
           (translateX t) _ (translateY t) _ Es E1 E2 Hx Hy).
Qed.

(** The cover fit of a 1920x1080 image in a 450x350 viewport, re-applied
    around the viewport center. *)
Lemma applyScale_at_current_scale_is_identity_witness :
  let t := {| scale := 35 # 108; translateX := - (775 # 9); translateY := 0 |} in
  transform_eq (Store.applyScale 450 350 1920 1080 (scale t) None None t) t.
Proof.
  intro t.
  apply (applyScale_at_current_scale_is_identity 450 350 1920 1080 None None t);
    try (vm_compute; discriminate); try reflexivity.
  unfold covers, covers_axis, t. simpl. halves. lra.
Defined.

(** X8 (a pan inside the bounds is exact).  When the transform moved by
    [(deltaX, deltaY)] still satisfies the cover condition, [panBy] stores
    exactly that moved transform: same scale, translation shifted by the
    delta. *)
Theorem panBy_within_bounds_is_exact
  (vw vh nw nh deltaX deltaY : Q) (prev : ViewTransform)
  (Hmoved : covers vw vh nw nh
              {| scale := scale prev;
                 translateX := translateX prev + deltaX;
                 translateY := translateY prev + deltaY |}) :
  transform_eq (Store.panBy vw vh nw nh deltaX deltaY prev)
               {| scale := scale prev;
                  translateX := translateX prev + deltaX;
                  translateY := translateY prev + deltaY |}.
Proof.
  destruct Hmoved as [Hx Hy]. simpl in Hx, Hy.
  unfold transform_eq, Store.panBy, Store.clamp. simpl.
  split; [reflexivity|].
  apply (clampTranslation_fixed vw vh nw nh); assumption.
Qed.

(** A 1000x1000 image at scale 1 in a 100x100 viewport, panned by
    (-30, -20) from (-50, -50). *)
Lemma panBy_within_bounds_is_exact_witness :
  transform_eq
    (Store.panBy 100 100 1000 1000 (-30) (-20)
       {| scale := 1; translateX := -50; translateY := -50 |})
    {| scale := 1; translateX := -50 + -30; translateY := -50 + -20 |}.
Proof.
  apply (panBy_within_bounds_is_exact 100 100 1000 1000 (-30) (-20)
           {| scale := 1; translateX := -50; translateY := -50 |}).
  unfold covers, covers_axis. simpl. halves. lra.
Defined.

(** ** Further properties of the coordinate bridge *)



(** X10 (round trip from image space).  For a positive scale and a pixel
    crop [c] with non-negative width and height lying within the image
    [[0, naturalW] x [0, naturalH]], mapping [c] to the viewport with
    [imageCropToViewportPx] and back with [viewportCropToNaturalPx] returns
    a pixel crop with the numbers of [c]. *)
Theorem natural_crop_round_trip
  (c : ImageCropControl.Crop) (s tx ty naturalW naturalH viewportW viewportH : Q)
  (Hs : 0 < s)
  (Hunit : ImageCropControl.unit c = ImageCropControl.Px)
  (Hx : 0 <= ImageCropControl.x c) (Hy : 0 <= ImageCropControl.y c)
  (Hw : 0 <= ImageCropControl.width c) (Hh : 0 <= ImageCropControl.height c)
  (Hright : ImageCropControl.x c + ImageCropControl.width c <= naturalW)
  (Hbottom : ImageCropControl.y c + ImageCropControl.height c <= naturalH) :
  let v := ImageCropControl.imageCropToViewportPx
             c naturalW naturalH s tx ty viewportW viewportH in
  let c' := ImageCropControl.viewportCropToNaturalPx v s tx ty naturalW naturalH in
  ImageCropControl.unit c' = ImageCropControl.Px
  /\ ImageCropControl.x c' == ImageCropControl.x c
  /\ ImageCropControl.y c' == ImageCropControl.y c
  /\ ImageCropControl.width c' == ImageCropControl.width c
  /\ ImageCropControl.height c' == ImageCropControl.height c.
Proof.
  intros v c'. subst c' v.
  unfold ImageCropControl.viewportCropToNaturalPx,
         ImageCropControl.imageCropToViewportPx.
  rewrite Hunit.
  cbn [ImageCropControl.unit ImageCropControl.x ImageCropControl.y
       ImageCropControl.width ImageCropControl.height].
  destruct c as [u cx cy cw ch]. simpl in *.
  assert (Ex : (cx * s + tx - tx) / s == cx) by (field; lra).
  assert (Ey : (cy * s + ty - ty) / s == cy) by (field; lra).
  assert (Ew : cw * s / s == cw) by (field; lra).
  assert (Eh : ch * s / s == ch) by (field; lra).
  split; [reflexivity|]. minmax. lra.
Qed.

(** A 300x200 crop of a 1920x1080 image shown at a third of its size. *)
Lemma natural_crop_round_trip_witness :
  let c := {| ImageCropControl.unit := ImageCropControl.Px;
              ImageCropControl.x := 100; ImageCropControl.y := 50;
              ImageCropControl.width := 300; ImageCropControl.height := 200 |} in
  let v := ImageCropControl.imageCropToViewportPx
             c 1920 1080 (1 # 3) (-20) (-5) 450 350 in
  let c' := ImageCropControl.viewportCropToNaturalPx v (1 # 3) (-20) (-5) 1920 1080 in
  ImageCropControl.x c' == 100 /\ ImageCropControl.width c' == 300.
Proof.
  intros c v c'.
  destruct (natural_crop_round_trip c (1 # 3) (-20) (-5) 1920 1080 450 350)
    as [_ [Ex [_ [Ew _]]]];
    try reflexivity; try discriminate.
  split; assumption.
Defined.

(** X11 (the full percent crop is the rendered image).  The crop
    [{ unit: "%", x: 0, y: 0, width: 100, height: 100 }] is mapped by
    [imageCropToViewportPx] to the rectangle the image occupies on screen,
    [(tx, ty)] with size [naturalW*scale] by [naturalH*scale]; for a positive
    scale and a non-negative natural size, mapping that rectangle back gives
    the whole image [(0, 0, naturalW, naturalH)]. *)
Theorem full_percent_crop_is_rendered_image
  (s tx ty naturalW naturalH viewportW viewportH : Q)
  (Hs : 0 < s) (Hw : 0 <= naturalW) (Hh : 0 <= naturalH) :
  let full := {| ImageCropControl.unit := ImageCropControl.Percent;
                 ImageCropControl.x := 0; ImageCropControl.y := 0;
                 ImageCropControl.width := 100;
                 ImageCropControl.height := 100 |} in
  let v := ImageCropControl.imageCropToViewportPx
             full naturalW naturalH s tx ty viewportW viewportH in
  let n := ImageCropControl.viewportCropToNaturalPx v s tx ty naturalW naturalH in
  (ImageCropControl.unit v = ImageCropControl.Px
   /\ ImageCropControl.x v == tx /\ ImageCropControl.y v == ty
   /\ ImageCropControl.width v == naturalW * s
   /\ ImageCropControl.height v == naturalH * s)
  /\ (ImageCropControl.x n == 0 /\ ImageCropControl.y n == 0
      /\ ImageCropControl.width n == naturalW
      /\ ImageCropControl.height n == naturalH).
Proof.
  intros full v n. subst n v full.
  unfold ImageCropControl.viewportCropToNaturalPx,
         ImageCropControl.imageCropToViewportPx.
  cbn [ImageCropControl.unit ImageCropControl.x ImageCropControl.y
       ImageCropControl.width ImageCropControl.height].
  assert (Ex : (0 / 100 * naturalW * s + tx - tx) / s == 0) by (field; lra).
  assert (Ey : (0 / 100 * naturalH * s + ty - ty) / s == 0) by (field; lra).
  assert (Ew : 100 / 100 * naturalW * s / s == naturalW) by (field; lra).
  assert (Eh : 100 / 100 * naturalH * s / s == naturalH) by (field; lra).
  assert (Fx : 0 / 100 * naturalW * s + tx == tx) by field.
  assert (Fy : 0 / 100 * naturalH * s + ty == ty) by field.
  assert (Fw : 100 / 100 * naturalW * s == naturalW * s) by field.
  assert (Fh : 100 / 100 * naturalH * s == naturalH * s) by field.
  split.
  - split; [reflexivity|]. tauto.
  - minmax. lra.
Qed.

(** The full crop of a 1920x1080 image at its cover fit in a 450x350
    viewport. *)
Lemma full_percent_crop_is_rendered_image_witness :
  let full := {| ImageCropControl.unit := ImageCropControl.Percent;
                 ImageCropControl.x := 0; ImageCropControl.y := 0;
                 ImageCropControl.width := 100;
                 ImageCropControl.height := 100 |} in
  let v := ImageCropControl.imageCropToViewportPx
             full 1920 1080 (35 # 108) (- (775 # 9)) 0 450 350 in
  ImageCropControl.x v == - (775 # 9) /\ ImageCropControl.height v == 1080 * (35 # 108).
Proof.
  intros full v.
  destruct (full_percent_crop_is_rendered_image
              (35 # 108) (- (775 # 9)) 0 1920 1080 450 350)
    as [[_ [Ex [_ [_ Eh]]]] _]; try reflexivity; try discriminate.
  split; assumption.
Defined.

(** ** The crop rectangle of the component *)

(** X12 (the crop-init effect is idempotent).  Whatever its arguments and
    the crop state, running the crop-init effect again on the state it left
    changes nothing; in particular the re-run that its own [setCrop]
    triggers does not replace the rectangle it has just created. *)
Theorem cropInitEffect_idempotent
  (usePanZoom isCroppingActive : bool) (vw vh naturalW naturalH : Q)
  (defaultCrop completedCrop : option ImageCropControl.Crop)
  (t : ViewTransform) (st : ImageCropControl.CropState) :
  let effect :=
    ImageCropControl.cropInitEffect usePanZoom isCroppingActive vw vh
      defaultCrop completedCrop naturalW naturalH t in
  effect (effect st) = effect st.
Proof.
  intro effect. subst effect. unfold ImageCropControl.cropInitEffect.
  destruct usePanZoom, isCroppingActive; cbn [negb orb]; try reflexivity.
  destruct (Num.leb vw 0) eqn:Gw; cbn [orb]; [reflexivity|].
  destruct (Num.leb vh 0) eqn:Gh; [reflexivity|].
  destruct (ImageCropControl.crop st) eqn:C; [now rewrite C | reflexivity].
Qed.

(** The viewport-to-image-to-viewport round trip on the numbers, with the
    forward map written out as the crop-init effect writes it. *)
Lemma crop_round_trip_numbers r s tx ty naturalW naturalH :
  0 < s ->
  0 <= ImageCropControl.width r -> 0 <= ImageCropControl.height r ->
  tx <= ImageCropControl.x r ->
  ImageCropControl.x r + ImageCropControl.width r <= tx + naturalW * s ->
  ty <= ImageCropControl.y r ->
  ImageCropControl.y r + ImageCropControl.height r <= ty + naturalH * s ->
  let n := ImageCropControl.viewportCropToNaturalPx r s tx ty naturalW naturalH in
  ImageCropControl.x n * s + tx == ImageCropControl.x r
  /\ ImageCropControl.y n * s + ty == ImageCropControl.y r
  /\ ImageCropControl.width n * s == ImageCropControl.width r
  /\ ImageCropControl.height n * s == ImageCropControl.height r.
Proof.
  intros Hs Hw Hh Hleft Hright Htop Hbottom n. subst n.
  destruct (bridge_axis_round_trip _ _ _ _ _ Hs Hw Hleft Hright) as [Ex Ew].
  destruct (bridge_axis_round_trip _ _ _ _ _ Hs Hh Htop Hbottom) as [Ey Eh].
  unfold ImageCropControl.viewportCropToNaturalPx.
  cbn [ImageCropControl.x ImageCropControl.y
       ImageCropControl.width ImageCropControl.height].
  cbv zeta in Ex, Ew, Ey, Eh. tauto.
Qed.

(** X13 (a completed crop is carried over to the same place).  In pan/zoom
    mode, let [r] be a viewport rectangle of positive width and height inside
    the rendered image, and let [handleCropComplete] store it as the
    completed crop.  If the crop state is later empty and there is no usable
    host default, the crop-init effect, under the same transform, creates a
    pixel rectangle with the numbers of [r]. *)
Theorem completed_crop_is_carried_over
  (r : ImageCropControl.Crop) (t : ViewTransform)
  (vw vh naturalW naturalH : Q)
  (defaultCrop : option ImageCropControl.Crop)
  (st : ImageCropControl.CropState)
  (Hvw : 0 < vw) (Hvh : 0 < vh) (Hs : 0 < scale t)
  (Hw : 0 < ImageCropControl.width r) (Hh : 0 < ImageCropControl.height r)
  (Hleft : translateX t <= ImageCropControl.x r)
  (Hright : ImageCropControl.x r + ImageCropControl.width r
            <= translateX t + naturalW * scale t)
  (Htop : translateY t <= ImageCropControl.y r)
  (Hbottom : ImageCropControl.y r + ImageCropControl.height r
             <= translateY t + naturalH * scale t)
  (Hnone : ImageCropControl.crop st = None)
  (Hdefault : ImageCropControl.usable defaultCrop = None) :
  let completed := ImageCropControl.handleCropComplete true r t naturalW naturalH in
  exists c,
    ImageCropControl.crop
      (ImageCropControl.cropInitEffect true true vw vh defaultCrop
         (Some completed) naturalW naturalH t st) = Some c
    /\ ImageCropControl.unit c = ImageCropControl.Px
    /\ ImageCropControl.x c == ImageCropControl.x r
    /\ ImageCropControl.y c == ImageCropControl.y r
    /\ ImageCropControl.width c == ImageCropControl.width r
    /\ ImageCropControl.height c == ImageCropControl.height r.
Proof.
  intro completed.
  assert (Hw0 : 0 <= ImageCropControl.width r) by lra.
  assert (Hh0 : 0 <= ImageCropControl.height r) by lra.
  pose proof (crop_round_trip_numbers r (scale t) (translateX t) (translateY t)
                naturalW naturalH Hs Hw0 Hh0 Hleft Hright Htop Hbottom)
    as [Ex [Ey [Ew Eh]]].
  assert (Hcw : 0 < ImageCropControl.width completed).
  { apply Qnot_le_lt. intro L.
    assert (ImageCropControl.width completed * scale t <= 0 * scale t)
      by (apply Qmult_le_compat_r; lra).
    unfold completed, ImageCropControl.handleCropComplete in H.
    cbn [negb] in H. lra. }
  assert (Hch : 0 < ImageCropControl.height completed).
  { apply Qnot_le_lt. intro L.
    assert (ImageCropControl.height completed * scale t <= 0 * scale t)
      by (apply Qmult_le_compat_r; lra).
    unfold completed, ImageCropControl.handleCropComplete in H.
    cbn [negb] in H. lra. }
  assert (Hus : ImageCropControl.usable (Some completed) = Some completed).
  { unfold ImageCropControl.usable.
    apply gtb_true_iff in Hcw, Hch. now rewrite Hcw, Hch. }
  eexists. split.
  - unfold ImageCropControl.cropInitEffect.
    apply leb_false_iff in Hvw, Hvh. rewrite Hvw, Hvh, Hnone. cbn [negb orb].
    rewrite Hdefault, Hus. reflexivity.
  - cbn [ImageCropControl.unit ImageCropControl.x ImageCropControl.y
         ImageCropControl.width ImageCropControl.height].
    split; [reflexivity|].
    unfold completed, ImageCropControl.handleCropComplete. cbn [negb].
    tauto.
Qed.

(** A 100x80 crop completed at half scale and carried over. *)
Lemma completed_crop_is_carried_over_witness :
  let r := {| ImageCropControl.unit := ImageCropControl.Px;
              ImageCropControl.x := 50; ImageCropControl.y := 60;
              ImageCropControl.width := 100; ImageCropControl.height := 80 |} in
  let t := {| scale := 1 # 2; translateX := -40; translateY := -20 |} in
  let st := {| ImageCropControl.crop := None;
               ImageCropControl.viewportCropInitializedRef := false;
               ImageCropControl.cropIsViewportSpaceRef := false |} in
  exists c,
    ImageCropControl.crop
      (ImageCropControl.cropInitEffect true true 450 350 None
         (Some (ImageCropControl.handleCropComplete true r t 1920 1080))
         1920 1080 t st) = Some c
    /\ ImageCropControl.x c == 50.
Proof.
  intros r t st.
  destruct (completed_crop_is_carried_over r t 450 350 1920 1080 None st)
    as [c [Hc [_ [Ex _]]]]; try reflexivity; try discriminate.
  exists c. split; assumption.
Defined.

(** X14 (an edited crop is passed back as it is).  In pan/zoom mode with
    cropping active, after [handleCropChange] has stored the edited crop [c],
    the crop handed to the crop widget is [c] itself under every later
    transform: it is treated as a viewport-space rectangle and is never
    projected a second time, whatever the space flag was before. *)
Theorem edited_crop_is_passed_back_unconverted
  (c : ImageCropControl.Crop) (t t' : ViewTransform)
  (vw vh naturalW naturalH : Q) (usePanZoomAtEdit : bool)
  (st : ImageCropControl.CropState)
  (completedCrop : option ImageCropControl.Crop) :
  let st' := fst (ImageCropControl.handleCropChange usePanZoomAtEdit c t
                    naturalW naturalH st completedCrop) in
  ImageCropControl.cropToPass true true true st' vw vh naturalW naturalH t'
  = Some c.
Proof.
  unfold ImageCropControl.handleCropChange.
  destruct (usePanZoomAtEdit
            && match ImageCropControl.unit c with
               | ImageCropControl.Px => true
               | ImageCropControl.Percent => false
               end
            && Num.gtb naturalW 0 && Num.gtb naturalH 0); reflexivity.
Qed.

(** X15 (the widget shows the rectangle the init effect will store).  In
    pan/zoom mode with cropping active and a measured viewport, when there is
    no crop yet and neither a usable host default nor a usable completed
    crop, the crop handed to the crop widget before the crop-init effect has
    run is the crop handed to it afterwards: the centered 200x200 box. *)
Theorem shown_crop_is_the_crop_initialised
  (vw vh naturalW naturalH : Q) (t : ViewTransform)
  (defaultCrop completedCrop : option ImageCropControl.Crop)
  (st : ImageCropControl.CropState)
  (Hvw : 0 < vw) (Hvh : 0 < vh)
  (Hnone : ImageCropControl.crop st = None)
  (Hdefault : ImageCropControl.usable defaultCrop = None)
  (Hcompleted : ImageCropControl.usable completedCrop = None) :
  let st' := ImageCropControl.cropInitEffect true true vw vh
               defaultCrop completedCrop naturalW naturalH t st in
  ImageCropControl.cropToPass true true true st vw vh naturalW naturalH t
  = ImageCropControl.cropToPass true true true st' vw vh naturalW naturalH t
  /\ ImageCropControl.cropToPass true true true st' vw vh naturalW naturalH t
     = Some (ImageCropControl.defaultViewportCrop200 vw vh).
Proof.
  intro st'. subst st'.
  unfold ImageCropControl.cropToPass, ImageCropControl.cropInitEffect.
  apply leb_false_iff in Hvw, Hvh.
  rewrite Hvw, Hvh, Hnone, Hdefault, Hcompleted. cbn. split; reflexivity.
Qed.

(** The first render with cropping on in the 450x350 viewport. *)
Lemma shown_crop_is_the_crop_initialised_witness :
  let t := {| scale := 35 # 108; translateX := - (775 # 9); translateY := 0 |} in
  let st := {| ImageCropControl.crop := None;
               ImageCropControl.viewportCropInitializedRef := false;
               ImageCropControl.cropIsViewportSpaceRef := false |} in
  ImageCropControl.cropToPass true true true st 450 350 1920 1080 t
  = ImageCropControl.cropToPass true true true
      (ImageCropControl.cropInitEffect true true 450 350 None None
         1920 1080 t st)
      450 350 1920 1080 t.
Proof.
  intros t st.
  apply (shown_crop_is_the_crop_initialised 450 350 1920 1080 t None None st);
    reflexivity.
Defined.

(** ** Zoom multiplier, host scaling and pinch *)

Lemma isTransformReady_true_iff nw nh vw vh :
  ImageCropControl.isTransformReady nw nh vw vh = true
  <-> 0 < nw /\ 0 < nh /\ 0 < vw /\ 0 < vh.
Proof.
  unfold ImageCropControl.isTransformReady.
  rewrite !andb_true_iff, !gtb_true_iff. tauto.
Qed.

(** For positive dimensions the sync effect publishes the clamped ratio of
    the scale to the cover scale. *)
Lemma zoomMultiplierSync_ready vw vh nw nh t :
  0 < vw -> 0 < vh -> 0 < nw -> 0 < nh ->
  ImageCropControl.zoomMultiplierSync true vw vh nw nh t
  = Some (clamp3 (scale t / getCoverScale vw vh nw nh) 0.4 3.0).
Proof.
  intros Hvw Hvh Hnw Hnh. unfold ImageCropControl.zoomMultiplierSync.
  assert (R : ImageCropControl.isTransformReady nw nh vw vh = true)
    by (apply isTransformReady_true_iff; tauto).
  rewrite R. cbn [negb orb].
  rewrite getScaleLimits_positive_dims by assumption. cbn [baseScale].
  pose proof (getCoverScale_pos vw vh nw nh Hvw Hvh Hnw Hnh) as Hb.
  apply leb_false_iff in Hb. rewrite Hb. reflexivity.
Qed.

Lemma clamp3_fixed v lo hi : lo <= v -> v <= hi -> clamp3 v lo hi == v.
Proof. intros H1 H2. minmax. lra. Qed.

(** The scale that [applyScale] stores lies within the scale limits. *)
Lemma stored_scale_bounds vw vh nw nh newScale ax ay prev :
  let lim := getScaleLimits vw vh nw nh in
  minScale lim <= scale (Store.applyScale vw vh nw nh newScale ax ay prev)
  /\ scale (Store.applyScale vw vh nw nh newScale ax ay prev) <= maxScale lim.
Proof.
  intro lim. rewrite applyScale_scale. cbv zeta. fold lim.
  destruct (getScaleLimits_ordered vw vh nw nh) as [_ Hlt]. fold lim in Hlt.
  apply clamp3_bounds. lra.
Qed.

(** X16 (after a zoom the published multiplier is the plain ratio).  With
    positive dimensions, after any [applyScale], the single path of wheel,
    pinch and host zoom, the zoom multiplier that the sync effect publishes
    equals
    [storedScale / baseScale]: the stored scale is already within
    [[0.4, 3.0]] times the base scale, so the clamp of the sync effect does
    not alter it. *)
Theorem published_multiplier_after_zoom
  (vw vh nw nh newScale : Q) (ax ay : option Q) (prev : ViewTransform)
  (Hvw : 0 < vw) (Hvh : 0 < vh) (Hnw : 0 < nw) (Hnh : 0 < nh) :
  let a := Store.applyScale vw vh nw nh newScale ax ay prev in
  let base := baseScale (getScaleLimits vw vh nw nh) in
  exists m,
    ImageCropControl.zoomMultiplierSync true vw vh nw nh a = Some m
    /\ m == scale a / base
    /\ 0.4 <= m /\ m <= 3.0.
Proof.
  intros a base.
  rewrite zoomMultiplierSync_ready by assumption.
  eexists. split; [reflexivity|].
  destruct (stored_scale_bounds vw vh nw nh newScale ax ay prev) as [Hlo Hhi].
  fold a in Hlo, Hhi. unfold base.
  rewrite getScaleLimits_positive_dims in * by assumption.
  cbn [minScale maxScale baseScale] in *.
  pose proof (getCoverScale_pos vw vh nw nh Hvw Hvh Hnw Hnh) as Hb.
  set (b := getCoverScale vw vh nw nh) in *.
  unfold MIN_ZOOM_MULTIPLIER, MAX_ZOOM_MULTIPLIER in *.
  assert (L : 0.4 <= scale a / b).
  { apply Qle_shift_div_l; [exact Hb | lra]. }
  assert (U : scale a / b <= 3.0).
  { apply Qle_shift_div_r; [exact Hb | lra]. }
  split; [apply clamp3_fixed; assumption|].
  apply clamp3_bounds. discriminate.
Qed.

(** A wheel zoom far beyond the maximum in the 450x350 viewport. *)
Lemma published_multiplier_after_zoom_witness :
  let t := {| scale := 35 # 108; translateX := - (775 # 9); translateY := 0 |} in
  exists m,
    ImageCropControl.zoomMultiplierSync true 450 350 1920 1080
      (Store.applyScale 450 350 1920 1080 50 (Some 10) (Some 20) t) = Some m
    /\ m <= 3.0.
Proof.
  intro t.
  destruct (published_multiplier_after_zoom 450 350 1920 1080 50
              (Some 10) (Some 20) t) as [m [Hm [_ [_ Hhi]]]];
    try reflexivity.
  exists m. split; assumption.
Defined.

(** X17 (the host scaling input comes back as the zoom multiplier).  With
    positive dimensions, after the host scaling effect has applied the
    [scaling] input, the zoom multiplier that the sync effect publishes is
    [scaling] clamped to [[0.4, 3.0]]. *)
Theorem host_scaling_round_trip
  (scaling vw vh nw nh : Q) (prev : ViewTransform)
  (Hvw : 0 < vw) (Hvh : 0 < vh) (Hnw : 0 < nw) (Hnh : 0 < nh) :
  exists m,
    ImageCropControl.zoomMultiplierSync true vw vh nw nh
      (ImageCropControl.hostScalingEffect scaling vw vh nw nh prev) = Some m
    /\ m == clamp3 scaling 0.4 3.0.
Proof.
  rewrite zoomMultiplierSync_ready by assumption.
  eexists. split; [reflexivity|].
  unfold ImageCropControl.hostScalingEffect.
  assert (R : ImageCropControl.isTransformReady nw nh vw vh = true)
    by (apply isTransformReady_true_iff; tauto).
  rewrite R. cbn [negb orb].
  pose proof (getCoverScale_pos vw vh nw nh Hvw Hvh Hnw Hnh) as Hb.
  pose proof Hvw as Gvw. pose proof Hvh as Gvh.
  pose proof Hnw as Gnw. pose proof Hnh as Gnh. pose proof Hb as Gb.
  apply leb_false_iff in Gvw, Gvh, Gnw, Gnh, Gb.
  rewrite Gvw, Gvh, Gnw, Gnh. cbn [orb].
  rewrite getScaleLimits_positive_dims by assumption.
  cbv zeta. cbn [minScale maxScale baseScale]. rewrite Gb.
  rewrite applyScale_scale.
  rewrite getScaleLimits_positive_dims by assumption.
  cbv zeta. cbn [minScale maxScale baseScale].
  set (b := getCoverScale vw vh nw nh) in *.
  unfold MIN_ZOOM_MULTIPLIER, MAX_ZOOM_MULTIPLIER.
  assert (E : clamp3 (Math.max (b * 0.4) (Math.min (b * 3.0) (b * scaling)))
                     (b * 0.4) (b * 3.0)
              == b * clamp3 scaling 0.4 3.0).
  { destruct (Qlt_le_dec scaling 0.4) as [C1|C1];
      [|destruct (Qlt_le_dec 3.0 scaling) as [C2|C2]].
    - assert (b * scaling <= b * 0.4) by (apply Qmult_le_l; lra).
      assert (Ec : clamp3 scaling 0.4 3.0 == 0.4) by (minmax; lra).
      rewrite Ec. minmax. lra.
    - assert (b * 3.0 <= b * scaling) by (apply Qmult_le_l; lra).
      assert (Ec : clamp3 scaling 0.4 3.0 == 3.0) by (minmax; lra).
      rewrite Ec. minmax. lra.
    - assert (b * 0.4 <= b * scaling) by (apply Qmult_le_l; lra).
      assert (b * scaling <= b * 3.0) by (apply Qmult_le_l; lra).
      assert (Ec : clamp3 scaling 0.4 3.0 == scaling) by (minmax; lra).
      rewrite Ec. minmax. lra. }
  assert (Er : clamp3 (Math.max (b * 0.4) (Math.min (b * 3.0) (b * scaling)))
                      (b * 0.4) (b * 3.0) / b
               == clamp3 scaling 0.4 3.0).
  { rewrite E. field. lra. }
  pose proof (clamp3_bounds scaling 0.4 3.0) as Hc.
  unfold clamp3 at 1. unfold Math.max at 1. unfold Math.min at 1.
  rewrite Er. apply clamp3_fixed; apply Hc; discriminate.
Qed.

(** The host asks for twice the cover fit in the 450x350 viewport. *)
Lemma host_scaling_round_trip_witness :
  let t := {| scale := 35 # 108; translateX := - (775 # 9); translateY := 0 |} in
  exists m,
    ImageCropControl.zoomMultiplierSync true 450 350 1920 1080
      (ImageCropControl.hostScalingEffect 2 450 350 1920 1080 t) = Some m
    /\ m == clamp3 2 0.4 3.0.
Proof.
  intro t.
  apply (host_scaling_round_trip 2 450 350 1920 1080 t); reflexivity.
Defined.

(** X18 (a pinch scales from the gesture-start scale).  During a pinch that
    started at a positive finger distance, with a positive current scale,
    the scale stored by a move is
    [initialScale * (dist / initialDistance)] clamped to the scale limits:
    it depends on the scale and distance recorded at gesture start and on the
    current distance, not on the current scale, so a long pinch does not
    compound. *)
Theorem pinch_scale_is_relative_to_gesture_start
  (vw vh nw nh dist : Q) (pinch : Pointers.PinchRef) (t : ViewTransform)
  (Hdist : 0 < Pointers.initialDistance pinch) (Hscale : 0 < scale t) :
  let lim := getScaleLimits vw vh nw nh in
  scale (Pointers.pinchZoom vw vh nw nh pinch dist t)
  == clamp3 (Pointers.initialScale pinch
             * (dist / Pointers.initialDistance pinch))
            (minScale lim) (maxScale lim).
Proof.
  intro lim. unfold Pointers.pinchZoom.
  apply gtb_true_iff in Hdist. rewrite Hdist.
  pose proof Hscale as G. apply gtb_true_iff in G. rewrite G. cbn [andb].
  rewrite zoomAt_scale. cbv zeta. fold lim.
  assert (E : scale t * (Pointers.initialScale pinch
                         * (dist / Pointers.initialDistance pinch) / scale t)
              == Pointers.initialScale pinch
                 * (dist / Pointers.initialDistance pinch)).
  { field. apply gtb_true_iff in Hdist. split; lra. }
  unfold clamp3, Math.max, Math.min. now rewrite E.
Qed.

(** Fingers spread from 100 to 150 apart, the pinch having started at the
    cover fit and the scale having grown meanwhile. *)
Lemma pinch_scale_is_relative_to_gesture_start_witness :
  let pinch := {| Pointers.initialDistance := 100;
                  Pointers.initialScale := 35 # 108;
                  Pointers.centerX := 200; Pointers.centerY := 150 |} in
  let t := {| scale := 2 # 5; translateX := -100; translateY := -30 |} in
  scale (Pointers.pinchZoom 450 350 1920 1080 pinch 150 t)
  == clamp3 ((35 # 108) * (150 / 100))
            (minScale (getScaleLimits 450 350 1920 1080))
            (maxScale (getScaleLimits 450 350 1920 1080)).
Proof.
  intros pinch t.
  apply (pinch_scale_is_relative_to_gesture_start 450 350 1920 1080 150 pinch t);
    reflexivity.
Defined.

(** ** The pointer handlers *)

Section PointerHandlers.

Variable hypot : Q -> Q -> Q.
Variables enablePanImage shiftToPanEnabled : bool.
Variable rect : option (Q * Q).
Variables vw vh nw nh : Q.

(** One handler keeps pan and pinch from being armed together. *)
Lemma handle_keeps_exclusive ev s :
  let s' := Pointers.handle hypot enablePanImage shiftToPanEnabled rect
                            vw vh nw nh ev s in
  Pointers.panRef s = None \/ Pointers.pinchRef s = None ->
  Pointers.panRef s' = None \/ Pointers.pinchRef s' = None.
Proof.
  intros s' H. subst s'. destruct ev as [e|e|e|e|k|k|]; cbn [Pointers.handle].
  - unfold Pointers.handlePointerDown.
    destruct (negb (ImageCropControl.isTransformReady nw nh vw vh));
      [exact H|].
    destruct (negb (Z.eqb (Pointers.button e) 0)); [exact H|].
    destruct (Pointers.mapSet (Pointers.pointerId e)
                (Pointers.clientX e, Pointers.clientY e)
                (Pointers.activePointersRef s)) as [|[k1 p1] [|[k2 p2] [|p3 m]]];
      cbn; try exact H.
    + destruct (ImageCropControl.panModeActive enablePanImage shiftToPanEnabled
                  (Pointers.isPanMode s)); cbn; [right; reflexivity | exact H].
    + left; reflexivity.
  - unfold Pointers.handlePointerMove. cbv zeta.
    destruct (Pointers.pinchRef s) as [pinch|] eqn:Ep;
      destruct (Pointers.mapSet (Pointers.pointerId e)
                  (Pointers.clientX e, Pointers.clientY e)
                  (Pointers.activePointersRef s))
        as [|[k1 p1] [|[k2 p2] [|p3 m]]];
      destruct (Pointers.panRef s) eqn:Ea; cbn;
      rewrite ?Ep, ?Ea in H; cbn; tauto.
  - unfold Pointers.handlePointerUp.
    destruct (Z.eqb (Pointers.button e) 0); cbn; [left; reflexivity | exact H].
  - left; reflexivity.
  - destruct k; exact H.
  - destruct k; exact H.
  - exact H.
Qed.

(** One handler either leaves the stored transform alone or stores one that
    satisfies the cover condition. *)
Lemma handle_transform ev s :
  let s' := Pointers.handle hypot enablePanImage shiftToPanEnabled rect
                            vw vh nw nh ev s in
  Pointers.transform s' = Pointers.transform s
  \/ covers vw vh nw nh (Pointers.transform s').
Proof.
  intro s'. subst s'. destruct ev as [e|e|e|e|k|k|]; cbn [Pointers.handle].
  - left. unfold Pointers.handlePointerDown.
    destruct (negb (ImageCropControl.isTransformReady nw nh vw vh));
      [reflexivity|].
    destruct (negb (Z.eqb (Pointers.button e) 0)); [reflexivity|].
    destruct (Pointers.mapSet (Pointers.pointerId e)
                (Pointers.clientX e, Pointers.clientY e)
                (Pointers.activePointersRef s)) as [|[k1 p1] [|[k2 p2] [|p3 m]]];
      try reflexivity.
    destruct (ImageCropControl.panModeActive enablePanImage shiftToPanEnabled
                (Pointers.isPanMode s)); reflexivity.
  - unfold Pointers.handlePointerMove. cbv zeta.
    assert (Hpan :
      forall p, covers vw vh nw nh
                  (Pointers.panDrag vw vh nw nh p e (Pointers.transform s))).
    { intro p. unfold Pointers.panDrag, Store.setTransformDirect.
      apply clamp_covers. }
    assert (Hpinch :
      forall pinch dist,
        Pointers.pinchZoom vw vh nw nh pinch dist (Pointers.transform s)
        = Pointers.transform s
        \/ covers vw vh nw nh
             (Pointers.pinchZoom vw vh nw nh pinch dist (Pointers.transform s))).
    { intros pinch dist. unfold Pointers.pinchZoom.
      destruct (Num.gtb (Pointers.initialDistance pinch) 0
                && Num.gtb (scale (Pointers.transform s)) 0);
        [right; unfold Store.zoomAt; apply applyScale_covers | left; reflexivity]. }
    destruct (Pointers.pinchRef s) as [pinch|];
      destruct (Pointers.mapSet (Pointers.pointerId e)
                  (Pointers.clientX e, Pointers.clientY e)
                  (Pointers.activePointersRef s))
        as [|[k1 p1] [|[k2 p2] [|p3 m]]];
      destruct (Pointers.panRef s) as [p|]; cbn;
      first [ apply Hpinch | right; apply Hpan | left; reflexivity ].
  - left. unfold Pointers.handlePointerUp.
    destruct (Z.eqb (Pointers.button e) 0); reflexivity.
  - left; reflexivity.
  - left. destruct k; reflexivity.
  - left. destruct k; reflexivity.
  - left; reflexivity.
Qed.

(** X19 (pan and pinch are never armed together).  After any sequence of
    pointer, key and leave events handled from the initial state, the pan
    anchor and the pinch anchor are not both set: at most one of the two
    gestures interprets the pointer stream. *)
Theorem pan_and_pinch_are_exclusive
  (evs : list Pointers.Event) (t0 : ViewTransform) :
  let s := Pointers.run hypot enablePanImage shiftToPanEnabled rect
                        vw vh nw nh evs (Pointers.initialState t0) in
  Pointers.panRef s = None \/ Pointers.pinchRef s = None.
Proof.
  cbv zeta.
  assert (G : forall s,
             Pointers.panRef s = None \/ Pointers.pinchRef s = None ->
             let s' := Pointers.run hypot enablePanImage shiftToPanEnabled rect
                                    vw vh nw nh evs s in
             Pointers.panRef s' = None \/ Pointers.pinchRef s' = None).
  { induction evs as [|ev evs IH]; intros s H; [exact H|].
    cbn [Pointers.run]. apply IH.
    apply handle_keeps_exclusive. exact H. }
  apply (G (Pointers.initialState t0)). left. reflexivity.
Qed.

(** X20 (the handlers never uncover the viewport).  After any sequence of
    pointer, key and leave events handled from the initial state showing
    [t0], the stored transform either is still [t0] or satisfies the cover
    condition for the current viewport and image. *)
Theorem handlers_keep_viewport_covered
  (evs : list Pointers.Event) (t0 : ViewTransform) :
  let s := Pointers.run hypot enablePanImage shiftToPanEnabled rect
                        vw vh nw nh evs (Pointers.initialState t0) in
  Pointers.transform s = t0 \/ covers vw vh nw nh (Pointers.transform s).
Proof.
  cbv zeta.
  assert (G : forall s,
             (Pointers.transform s = t0
              \/ covers vw vh nw nh (Pointers.transform s)) ->
             let s' := Pointers.run hypot enablePanImage shiftToPanEnabled rect
                                    vw vh nw nh evs s in
             Pointers.transform s' = t0
             \/ covers vw vh nw nh (Pointers.transform s')).
  { induction evs as [|ev evs IH]; intros s H; [exact H|].
    cbn [Pointers.run]. apply IH.
    destruct (handle_transform ev s) as [E|C]; [|right; exact C].
    cbv zeta in E. rewrite E. exact H. }
  apply (G (Pointers.initialState t0)). left. reflexivity.
Qed.

End PointerHandlers.

(** ** The export of the crop window *)



(** A number rounds to zero or less exactly when it is below one half. *)
Lemma Math_round_nonpositive v :
  CropToBase64.Math_round v <= 0 <-> v < 1 # 2.
Proof.
  unfold CropToBase64.Math_round. split; intro H.
  - change 0 with (inject_Z 0) in H. rewrite <- Zle_Qle in H.
    pose proof (Qlt_floor (v + (1 # 2))) as L.
    assert (B : inject_Z (Qfloor (v + (1 # 2)) + 1) <= inject_Z 1)
      by (rewrite <- Zle_Qle; lia).
    change (inject_Z 1) with 1 in B. lra.
  - change 0 with (inject_Z 0). rewrite <- Zle_Qle.
    apply Z.lt_succ_r. rewrite Zlt_Qlt.
    apply Qle_lt_trans with (1 := Qfloor_le _).
    change (inject_Z (Z.succ 0)) with 1. lra.
Qed.

(** X21 (a crop thinner than half a pixel exports the placeholder).  When
    the image found at frame time is the one the export was requested for,
    the export produces the blank placeholder exactly when the crop
    rectangle in use, the one of [exportStateRef] if set and the captured
    one otherwise, has a width or a height below one half; otherwise it
    draws on a canvas. *)
Theorem export_placeholder_iff_thin_crop
  (imgW imgH : Q)
  (refState : option (ImageCropControl.Crop * ViewTransform))
  (viewportCrop : ImageCropControl.Crop) (transform : ViewTransform)
  (circularCrop : bool) :
  let cropRect :=
    fst (match refState with
         | Some st => st
         | None => (viewportCrop, transform)
         end) in
  let out := CropToBase64.exportFrame (Some (imgW, imgH)) imgW imgH
               refState viewportCrop transform circularCrop in
  (out = CropToBase64.Placeholder
   <-> (ImageCropControl.width cropRect < 1 # 2
        \/ ImageCropControl.height cropRect < 1 # 2))
  /\ out <> CropToBase64.Nothing.
Proof.
  intros cropRect out. subst out. unfold CropToBase64.exportFrame.
  rewrite !neqb_refl. cbn [orb]. cbv zeta. fold cropRect.
  pose proof (Math_round_nonpositive (ImageCropControl.width cropRect)) as Rw.
  pose proof (Math_round_nonpositive (ImageCropControl.height cropRect)) as Rh.
  case_leb (CropToBase64.Math_round (ImageCropControl.width cropRect)) 0;
    [|case_leb (CropToBase64.Math_round (ImageCropControl.height cropRect)) 0];
    cbn [orb].
  - split; [|discriminate]. split; [intros _; left; now apply Rw | reflexivity].
  - split; [|discriminate]. split; [intros _; right; now apply Rh | reflexivity].
  - split; [|discriminate]. split; [discriminate|].
    intros [H|H]; [apply Rw in H | apply Rh in H]; lra.
Qed.

(** A crop 0.4 pixels wide, read from the state ref. *)
Lemma export_placeholder_iff_thin_crop_witness :
  let thin := {| ImageCropControl.unit := ImageCropControl.Px;
                 ImageCropControl.x := 10; ImageCropControl.y := 10;
                 ImageCropControl.width := 0.4; ImageCropControl.height := 50 |} in
  let t := {| scale := 1; translateX := 0; translateY := 0 |} in
  CropToBase64.exportFrame (Some (200, 200)) 200 200 (Some (thin, t)) thin t false
  = CropToBase64.Placeholder.
Proof.
  intros thin t.
  apply (export_placeholder_iff_thin_crop 200 200 (Some (thin, t)) thin t false).
  left. reflexivity.
Defined.



(** ** The outputs of the control *)

(** X23 (the one-shot outputs are delivered once).  Whatever the fields of
    the control, when [getOutputs] is called twice in a row, the second call
    carries no [imageOutput] and no [actionOutput], reports the same
    [zoomMultiplier], [isImageLoaded], [droppedImageBase64] and [dropToken]
    as the first, and leaves the fields as the first call left them. *)
Theorem getOutputs_is_one_shot (c : ImageCrop.Control) :
  let first := ImageCrop.getOutputs c in
  let second := ImageCrop.getOutputs (snd first) in
  ImageCrop.imageOutput (fst second) = None
  /\ ImageCrop.actionOutput (fst second) = None
  /\ ImageCrop.zoomMultiplier (fst second) = ImageCrop.zoomMultiplier (fst first)
  /\ ImageCrop.isImageLoaded (fst second) = ImageCrop.isImageLoaded (fst first)
  /\ ImageCrop.droppedImageBase64 (fst second)
     = ImageCrop.droppedImageBase64 (fst first)
  /\ ImageCrop.dropToken (fst second) = ImageCrop.dropToken (fst first)
  /\ snd second = snd first.
Proof.
  destruct c as [ds de cc cr ao zm il db dt ii oh sig].
  unfold ImageCrop.getOutputs. cbn.
  destruct (ds || de); cbn; repeat split; reflexivity.
Qed.

Lemma dropToken_after_calls ks :
  forall c,
    ImageCrop._dropToken (ImageCrop.calls ks c)
    = (ImageCrop._dropToken c + ImageCrop.drops ks)%Z.
Proof.
  induction ks as [|k ks IH]; intro c; cbn [ImageCrop.calls ImageCrop.drops].
  - lia.
  - rewrite IH.
    destruct k; cbn [ImageCrop.call ImageCrop.onDropSuccess ImageCrop._dropToken
                     ImageCrop.onCropComplete ImageCrop.onDragStart
                     ImageCrop.onDragEnd ImageCrop.onZoomMultiplierChange
                     ImageCrop.onImageLoadedChange ImageCrop.resetControlState
                     ImageCrop.getOutputs snd]; lia.
Qed.

(** X24 ([dropToken] counts the drops).  After any sequence of callbacks,
    resets and output reads on a freshly initialised control, [_dropToken]
    is the number of [onDropSuccess] calls in the sequence; no other call,
    a reset included, changes it, so it never decreases. *)
Theorem dropToken_counts_drops (ks : list ImageCrop.Call) :
  ImageCrop._dropToken (ImageCrop.calls ks ImageCrop.init) = ImageCrop.drops ks
  /\ ImageCrop.dropToken
       (fst (ImageCrop.getOutputs (ImageCrop.calls ks ImageCrop.init)))
     = ImageCrop.drops ks
  /\ (0 <= ImageCrop.drops ks)%Z.
Proof.
  split; [|split].
  - rewrite dropToken_after_calls. reflexivity.
  - unfold ImageCrop.getOutputs. cbn [fst ImageCrop.dropToken].
    rewrite dropToken_after_calls. reflexivity.
  - induction ks as [|k ks IH]; cbn [ImageCrop.drops]; [lia|].
    destruct k; lia.
Qed.

Lemma crop_result_survives ks :
  forallb ImageCrop.leavesImageOutput ks = true ->
  forall c,
    ImageCrop._actionCropComplete (ImageCrop.calls ks c)
    = ImageCrop._actionCropComplete c
    /\ ImageCrop._cropResults (ImageCrop.calls ks c) = ImageCrop._cropResults c.
Proof.
  induction ks as [|k ks IH]; intros H c; cbn [ImageCrop.calls]; [now split|].
  cbn [forallb] in H. apply andb_true_iff in H. destruct H as [Hk Hks].
  destruct (IH Hks (ImageCrop.call k c)) as [E1 E2]. rewrite E1, E2.
  destruct k; try discriminate Hk; now split.
Qed.

(** X25 (a crop result is not lost to other notifications).  After
    [onCropComplete] has received a non-empty result, whatever zoom, drag,
    image-loaded, drop and reset calls follow, the next [getOutputs] carries
    that result as [imageOutput]. *)
Theorem crop_result_reaches_next_getOutputs
  (results : string) (ks : list ImageCrop.Call) (c : ImageCrop.Control)
  (Hresults : results <> ""%string)
  (Hks : forallb ImageCrop.leavesImageOutput ks = true) :
  ImageCrop.imageOutput
    (fst (ImageCrop.getOutputs
            (ImageCrop.calls ks (ImageCrop.onCropComplete results c))))
  = Some results.
Proof.
  destruct (crop_result_survives ks Hks (ImageCrop.onCropComplete results c))
    as [E1 E2].
  unfold ImageCrop.getOutputs. cbn [fst ImageCrop.imageOutput].
  rewrite E1, E2. cbn.
  destruct (String.eqb results "") eqn:E; [|reflexivity].
  apply String.eqb_eq in E. contradiction.
Qed.

(** A crop result followed by a zoom change, a drop and a reset. *)
Lemma crop_result_reaches_next_getOutputs_witness :
  ImageCrop.imageOutput
    (fst (ImageCrop.getOutputs
            (ImageCrop.calls
               (ImageCrop.ZoomMultiplierChange 2
                :: ImageCrop.DropSuccess "data:image/png;base64,AAAA"
                :: ImageCrop.Reset :: nil)
               (ImageCrop.onCropComplete "data:image/png;base64,iVBOR"
                  ImageCrop.init))))
  = Some "data:image/png;base64,iVBOR"%string.
Proof.
  apply (crop_result_reaches_next_getOutputs
           "data:image/png;base64,iVBOR"
           (ImageCrop.ZoomMultiplierChange 2
            :: ImageCrop.DropSuccess "data:image/png;base64,AAAA"
            :: ImageCrop.Reset :: nil)
           ImageCrop.init);
    [discriminate | reflexivity].
Defined.

(** ** The image source *)

(** X26 (an image counts as real exactly when a source is selected).
    Whatever the host input, the stored dropped image and the override flag,
    [isRealImageSource] is true exactly when [imageSrc] is defined, and a
    defined [imageSrc] is never the empty string. *)
Theorem isRealImageSource_iff_source_selected
  (hostSrc : string) (internalImageDataUrl : option string)
  (overrideHostImage : bool) :
  let src := ImageSrc.effectiveSrc hostSrc internalImageDataUrl overrideHostImage in
  ImageSrc.isRealImageSource hostSrc internalImageDataUrl overrideHostImage
  = match src with Some _ => true | None => false end
  /\ ImageCrop.truthy src = match src with Some _ => true | None => false end.
Proof.
  unfold ImageSrc.effectiveSrc, ImageSrc.isRealImageSource.
  destruct (ImageCrop.truthy internalImageDataUrl) eqn:T.
  - destruct internalImageDataUrl as [i|]; [|discriminate T].
    destruct overrideHostImage; cbn [andb orb].
    + rewrite T, orb_true_r. now split.
    + destruct (ImageSrc.hostIsValid hostSrc) eqn:V; cbn [orb].
      * split; [reflexivity|].
        unfold ImageSrc.hostIsValid in V. rewrite !andb_true_iff in V.
        cbn [ImageCrop.truthy]. tauto.
      * rewrite T. now split.
  - rewrite andb_false_r, !orb_false_r.
    destruct (ImageSrc.hostIsValid hostSrc) eqn:V.
    + split; [reflexivity|].
      unfold ImageSrc.hostIsValid in V. rewrite !andb_true_iff in V.
      cbn [ImageCrop.truthy]. tauto.
    + now split.
Qed.

(** ** Zooming out below the cover scale *)

(** X27 (below the cover scale the image is centered with margins).  With
    positive dimensions, when [applyScale] stores a scale below the cover
    scale, which the scale limits allow down to 0.4 times it, the scaled
    image is shorter than the viewport on at least one axis, and on such an
    axis the stored translation is the centering one,
    [(viewport - img*scale)/2], strictly positive: the viewport shows equal
    blank margins on both sides of the image. *)
Theorem zoom_below_cover_centers_with_margins
  (vw vh nw nh newScale : Q) (ax ay : option Q) (prev : ViewTransform)
  (Hvw : 0 < vw) (Hvh : 0 < vh) (Hnw : 0 < nw) (Hnh : 0 < nh)
  (Hbelow : scale (Store.applyScale vw vh nw nh newScale ax ay prev)
            < getCoverScale vw vh nw nh) :
  let a := Store.applyScale vw vh nw nh newScale ax ay prev in
  (nw * scale a < vw
   /\ translateX a == (vw - nw * scale a) / 2 /\ 0 < translateX a)
  \/ (nh * scale a < vh
      /\ translateY a == (vh - nh * scale a) / 2 /\ 0 < translateY a).
Proof.
  intro a. fold a in Hbelow.
  destruct (applyScale_covers vw vh nw nh newScale ax ay prev) as [[_ Cx] [_ Cy]].
  fold a in Cx, Cy.
  rewrite getCoverScale_positive_image in Hbelow by assumption.
  unfold Math.max in Hbelow.
  assert (Hor : scale a < vw / nw \/ scale a < vh / nh).
  { destruct (Q.max_spec (vw / nw) (vh / nh)) as [[_ E]|[_ E]];
      rewrite E in Hbelow; tauto. }
  destruct Hor as [L|L]; [left | right].
  - assert (F : nw * scale a < vw).
    { assert (M : scale a * nw < vw / nw * nw)
        by (apply Qmult_lt_compat_r; assumption).
      assert (E : vw / nw * nw == vw) by (field; lra). lra. }
    specialize (Cx F). split; [exact F|]. split; [exact Cx|].
    rewrite Cx. halves. lra.
  - assert (F : nh * scale a < vh).
    { assert (M : scale a * nh < vh / nh * nh)
        by (apply Qmult_lt_compat_r; assumption).
      assert (E : vh / nh * nh == vh) by (field; lra). lra. }
    specialize (Cy F). split; [exact F|]. split; [exact Cy|].
    rewrite Cy. halves. lra.
Qed.

(** Zooming the 1920x1080 image out to the minimum in the 450x350
    viewport. *)
Lemma zoom_below_cover_centers_with_margins_witness :
  let t := {| scale := 35 # 108; translateX := - (775 # 9); translateY := 0 |} in
  let a := Store.applyScale 450 350 1920 1080 (1 # 100) None None t in
  (1920 * scale a < 450
   /\ translateX a == (450 - 1920 * scale a) / 2 /\ 0 < translateX a)
  \/ (1080 * scale a < 350
      /\ translateY a == (350 - 1080 * scale a) / 2 /\ 0 < translateY a).
Proof.
  intros t a.
  apply (zoom_below_cover_centers_with_margins 450 350 1920 1080 (1 # 100)
           None None t); reflexivity.
Defined.
